(** * The base stackable stream endpoint of genio (genio/genio_base.c)

    A shallow embedding of the state machine and event router that composes
    a lower-level transport (LL) with an optional filter, and the properties
    of it that the specification states.

    The endpoint's own data ([struct basen_data]) is a record.  Everything the
    endpoint calls but does not implement (the filter, the LL, the host
    services and the user's callbacks) acts on an abstract external state [E]
    through tables of operations, as the C code reaches them through its
    [ops] tables.  Every call that leaves the endpoint is logged in a trace, so
    that "is issued", "is invoked" and "is not called" are statements about
    the trace. *)

From Stdlib Require Import ZArith List Bool Lia.
From Stdlib Require Import Strings.Byte.
Import ListNotations.
Open Scope Z_scope.

(** ** Constants of <errno.h> (Linux values) *)

Definition EBADF : Z := 9.
Definition EAGAIN : Z := 11.
Definition EBUSY : Z := 16.
Definition ECOMM : Z := 70.
Definition ECONNRESET : Z := 104.
Definition ETIMEDOUT : Z := 110.
Definition EINPROGRESS : Z := 115.

(** [unsigned int] arithmetic wraps at 2^32; a [long] converted to [int]
    keeps its low 32 bits, read as a signed number. *)

Definition UINT_MOD : Z := 2 ^ 32.

Definition uint_incr (n : Z) : Z := (n + 1) mod UINT_MOD.

Definition int_of_long (z : Z) : Z := (z + 2 ^ 31) mod 2 ^ 32 - 2 ^ 31.

(** ** Data model *)

Inductive basen_state : Type :=
| BASEN_CLOSED
| BASEN_IN_LL_OPEN
| BASEN_IN_FILTER_OPEN
| BASEN_OPEN
| BASEN_CLOSE_WAIT_DRAIN
| BASEN_IN_FILTER_CLOSE
| BASEN_IN_LL_CLOSE.

Definition basen_state_eqb (a b : basen_state) : bool :=
  match a, b with
  | BASEN_CLOSED, BASEN_CLOSED
  | BASEN_IN_LL_OPEN, BASEN_IN_LL_OPEN
  | BASEN_IN_FILTER_OPEN, BASEN_IN_FILTER_OPEN
  | BASEN_OPEN, BASEN_OPEN
  | BASEN_CLOSE_WAIT_DRAIN, BASEN_CLOSE_WAIT_DRAIN
  | BASEN_IN_FILTER_CLOSE, BASEN_IN_FILTER_CLOSE
  | BASEN_IN_LL_CLOSE, BASEN_IN_LL_CLOSE => true
  | _, _ => false
  end.

Infix "=s?" := basen_state_eqb (at level 70, no associativity).

(** A user-supplied function pointer (completion callback) is the address of
    user code; what the code does is looked up in the host description. *)
Definition fnptr : Type := nat.

(** [struct timeval]: seconds and microseconds. *)
Definition timeval : Type := (Z * Z)%type.

(** A buffer argument: [None] is the NULL pointer (with length 0). *)
Definition buffer : Type := option (list byte).

(** The fields of [struct basen_data] that the state machine reads and
    writes.  The pointers [o], [filter], [filter_ops], [ll], [ll_ops],
    [lock], [timer], [deferred_op_runner] and [net.cbs] are set once at
    allocation and never change afterwards; they are part of the host
    description below. *)
Record basen_data : Type := mk_basen_data {
  refcount : Z;
  freeref : Z;
  state : basen_state;
  open_done : option fnptr;
  open_data : Z;
  close_done : option fnptr;
  close_data : Z;
  read_enabled : bool;
  in_read : bool;
  xmit_enabled : bool;
  tmp_xmit_enabled : bool;
  saved_xmit_err : Z;
  ll_err_occurred : bool;
  deferred_op_pending : bool;
  deferred_read : bool;
  deferred_open : bool;
  deferred_close : bool
}.

Definition set_refcount (v : Z) (d : basen_data) : basen_data :=
  mk_basen_data v (freeref d) (state d) (open_done d) (open_data d)
    (close_done d) (close_data d) (read_enabled d) (in_read d) (xmit_enabled
    d) (tmp_xmit_enabled d) (saved_xmit_err d) (ll_err_occurred d)
    (deferred_op_pending d) (deferred_read d) (deferred_open d)
    (deferred_close d).

Definition set_freeref (v : Z) (d : basen_data) : basen_data :=
  mk_basen_data (refcount d) v (state d) (open_done d) (open_data d)
    (close_done d) (close_data d) (read_enabled d) (in_read d) (xmit_enabled
    d) (tmp_xmit_enabled d) (saved_xmit_err d) (ll_err_occurred d)
    (deferred_op_pending d) (deferred_read d) (deferred_open d)
    (deferred_close d).

Definition set_state (v : basen_state) (d : basen_data) : basen_data :=
  mk_basen_data (refcount d) (freeref d) v (open_done d) (open_data d)
    (close_done d) (close_data d) (read_enabled d) (in_read d) (xmit_enabled
    d) (tmp_xmit_enabled d) (saved_xmit_err d) (ll_err_occurred d)
    (deferred_op_pending d) (deferred_read d) (deferred_open d)
    (deferred_close d).

Definition set_open_done (v : option fnptr) (d : basen_data) : basen_data :=
  mk_basen_data (refcount d) (freeref d) (state d) v (open_data d) (close_done
    d) (close_data d) (read_enabled d) (in_read d) (xmit_enabled d)
    (tmp_xmit_enabled d) (saved_xmit_err d) (ll_err_occurred d)
    (deferred_op_pending d) (deferred_read d) (deferred_open d)
    (deferred_close d).

Definition set_open_data (v : Z) (d : basen_data) : basen_data :=
  mk_basen_data (refcount d) (freeref d) (state d) (open_done d) v (close_done
    d) (close_data d) (read_enabled d) (in_read d) (xmit_enabled d)
    (tmp_xmit_enabled d) (saved_xmit_err d) (ll_err_occurred d)
    (deferred_op_pending d) (deferred_read d) (deferred_open d)
    (deferred_close d).

Definition set_close_done (v : option fnptr) (d : basen_data) : basen_data :=
  mk_basen_data (refcount d) (freeref d) (state d) (open_done d) (open_data d)
    v (close_data d) (read_enabled d) (in_read d) (xmit_enabled d)
    (tmp_xmit_enabled d) (saved_xmit_err d) (ll_err_occurred d)
    (deferred_op_pending d) (deferred_read d) (deferred_open d)
    (deferred_close d).

Definition set_close_data (v : Z) (d : basen_data) : basen_data :=
  mk_basen_data (refcount d) (freeref d) (state d) (open_done d) (open_data d)
    (close_done d) v (read_enabled d) (in_read d) (xmit_enabled d)
    (tmp_xmit_enabled d) (saved_xmit_err d) (ll_err_occurred d)
    (deferred_op_pending d) (deferred_read d) (deferred_open d)
    (deferred_close d).

Definition set_read_enabled (v : bool) (d : basen_data) : basen_data :=
  mk_basen_data (refcount d) (freeref d) (state d) (open_done d) (open_data d)
    (close_done d) (close_data d) v (in_read d) (xmit_enabled d)
    (tmp_xmit_enabled d) (saved_xmit_err d) (ll_err_occurred d)
    (deferred_op_pending d) (deferred_read d) (deferred_open d)
    (deferred_close d).

Definition set_in_read (v : bool) (d : basen_data) : basen_data :=
  mk_basen_data (refcount d) (freeref d) (state d) (open_done d) (open_data d)
    (close_done d) (close_data d) (read_enabled d) v (xmit_enabled d)
    (tmp_xmit_enabled d) (saved_xmit_err d) (ll_err_occurred d)
    (deferred_op_pending d) (deferred_read d) (deferred_open d)
    (deferred_close d).

Definition set_xmit_enabled (v : bool) (d : basen_data) : basen_data :=
  mk_basen_data (refcount d) (freeref d) (state d) (open_done d) (open_data d)
    (close_done d) (close_data d) (read_enabled d) (in_read d) v
    (tmp_xmit_enabled d) (saved_xmit_err d) (ll_err_occurred d)
    (deferred_op_pending d) (deferred_read d) (deferred_open d)
    (deferred_close d).

Definition set_tmp_xmit_enabled (v : bool) (d : basen_data) : basen_data :=
  mk_basen_data (refcount d) (freeref d) (state d) (open_done d) (open_data d)
    (close_done d) (close_data d) (read_enabled d) (in_read d) (xmit_enabled
    d) v (saved_xmit_err d) (ll_err_occurred d) (deferred_op_pending d)
    (deferred_read d) (deferred_open d) (deferred_close d).

Definition set_saved_xmit_err (v : Z) (d : basen_data) : basen_data :=
  mk_basen_data (refcount d) (freeref d) (state d) (open_done d) (open_data d)
    (close_done d) (close_data d) (read_enabled d) (in_read d) (xmit_enabled
    d) (tmp_xmit_enabled d) v (ll_err_occurred d) (deferred_op_pending d)
    (deferred_read d) (deferred_open d) (deferred_close d).

Definition set_ll_err_occurred (v : bool) (d : basen_data) : basen_data :=
  mk_basen_data (refcount d) (freeref d) (state d) (open_done d) (open_data d)
    (close_done d) (close_data d) (read_enabled d) (in_read d) (xmit_enabled
    d) (tmp_xmit_enabled d) (saved_xmit_err d) v (deferred_op_pending d)
    (deferred_read d) (deferred_open d) (deferred_close d).

Definition set_deferred_op_pending (v : bool) (d : basen_data) : basen_data :=
  mk_basen_data (refcount d) (freeref d) (state d) (open_done d) (open_data d)
    (close_done d) (close_data d) (read_enabled d) (in_read d) (xmit_enabled
    d) (tmp_xmit_enabled d) (saved_xmit_err d) (ll_err_occurred d) v
    (deferred_read d) (deferred_open d) (deferred_close d).

Definition set_deferred_read (v : bool) (d : basen_data) : basen_data :=
  mk_basen_data (refcount d) (freeref d) (state d) (open_done d) (open_data d)
    (close_done d) (close_data d) (read_enabled d) (in_read d) (xmit_enabled
    d) (tmp_xmit_enabled d) (saved_xmit_err d) (ll_err_occurred d)
    (deferred_op_pending d) v (deferred_open d) (deferred_close d).

Definition set_deferred_open (v : bool) (d : basen_data) : basen_data :=
  mk_basen_data (refcount d) (freeref d) (state d) (open_done d) (open_data d)
    (close_done d) (close_data d) (read_enabled d) (in_read d) (xmit_enabled
    d) (tmp_xmit_enabled d) (saved_xmit_err d) (ll_err_occurred d)
    (deferred_op_pending d) (deferred_read d) v (deferred_close d).

Definition set_deferred_close (v : bool) (d : basen_data) : basen_data :=
  mk_basen_data (refcount d) (freeref d) (state d) (open_done d) (open_data d)
    (close_done d) (close_data d) (read_enabled d) (in_read d) (xmit_enabled
    d) (tmp_xmit_enabled d) (saved_xmit_err d) (ll_err_occurred d)
    (deferred_op_pending d) (deferred_read d) (deferred_open d) v.

(** The two completion functions the endpoint hands to the LL's [close]. *)
Inductive ll_close_done_fn : Type :=
| Basen_ll_close_done
| Basen_ll_close_on_err.

(** Calls that leave the endpoint, in the order they are made. *)
Inductive event : Type :=
| EvLock
| EvUnlock
| EvLLSetReadEnable (enable : bool)
| EvLLSetWriteEnable (enable : bool)
| EvLLWrite (buf : buffer)
| EvLLOpen
| EvLLClose (done : ll_close_done_fn) (close_data : Z)
| EvFilterSetup
| EvFilterCleanup
| EvFilterTryConnect
| EvFilterTryDisconnect
| EvFilterCheckOpenDone
| EvFilterUlWrite (buf : buffer)
| EvFilterLlWrite (buf : buffer)
| EvFilterLlUrgent
| EvFilterTimeout
| EvStartTimer (timeout : timeval)
| EvStopTimer
| EvRun
| EvZalloc
| EvAllocLock
| EvAllocTimer
| EvAllocRunner
| EvFilterSetCallbacks
| EvLLSetCallbacks
| EvFinishFree
| EvReadCallback (err : Z) (buf : buffer)
| EvWriteCallback
| EvUrgentCallback
| EvOpenDone (fn : fnptr) (err : Z) (open_data : Z)
| EvCloseDone (fn : fnptr) (close_data : Z).

(** Why a run of the C code does not reach its [return]. *)
Inductive fault : Type :=
| AssertFailed     (* an [assert] does not hold: abort() *)
| NullDeref        (* a call or store through a NULL pointer *)
| OutOfFuel.       (* the retry loop of the deferred-op runner went on *)

(** What user code may call on the endpoint ([basen_net_funcs]); a user
    callback runs with the lock released and may make such calls before it
    returns. *)
Inductive user_op : Type :=
| UWrite (buf : list byte)
| UOpen (open_done : option fnptr) (open_data : Z)
| UClose (close_done : option fnptr) (close_data : Z)
| UFree
| URef
| USetReadCallbackEnable (enabled : bool)
| USetWriteCallbackEnable (enabled : bool).

Definition is_UOpen (op : user_op) : bool :=
  match op with UOpen _ _ => true | _ => false end.

Definition is_open_done (e : event) : bool :=
  match e with EvOpenDone _ _ _ => true | _ => false end.

Definition is_write_callback (e : event) : bool :=
  match e with EvWriteCallback => true | _ => false end.

Definition is_read_callback (e : event) : bool :=
  match e with EvReadCallback _ _ => true | _ => false end.

Definition is_user_callback (e : event) : bool :=
  match e with
  | EvReadCallback _ _ | EvWriteCallback | EvUrgentCallback
  | EvOpenDone _ _ _ | EvCloseDone _ _ => true
  | _ => false
  end.

Definition is_ll_enable (e : event) : bool :=
  match e with
  | EvLLSetReadEnable _ | EvLLSetWriteEnable _ => true
  | _ => false
  end.


Definition is_ll_close (e : event) : bool :=
  match e with EvLLClose _ _ => true | _ => false end.

Definition is_try_disconnect (e : event) : bool :=
  match e with EvFilterTryDisconnect => true | _ => false end.

Definition is_payload_write (e : event) : bool :=
  match e with EvFilterUlWrite _ | EvLLWrite _ => true | _ => false end.

Definition is_lock_event (e : event) : bool :=
  match e with EvLock | EvUnlock => true | _ => false end.

Section Types.

(** The state of everything outside the endpoint: filter, LL, host and
    user. *)
Context {E : Type}.

(** A filter's [ul_write] and [ll_write] receive a data handler and call it
    as often as they like before they return.  [fprog] is that behaviour:
    finish with an error code, a count and the filter's new state, or leave
    state [e], call the handler on [buf] and go on from what the handler
    returned and the external state it left. *)
Inductive fprog : Type :=
| FDone (err : Z) (rcount : Z) (e : E)
| FHandler (e : E) (buf : buffer) (k : Z -> Z -> E -> fprog).

(** [struct genio_filter_ops], without [set_callbacks] and [free]. *)
Record genio_filter_ops : Type := {
  ul_read_pending : E -> bool;
  ll_write_pending : E -> bool;
  ll_read_needed : E -> bool;
  check_open_done : E -> Z * E;
  try_connect : E -> (Z * timeval) * E;
  try_disconnect : E -> (Z * timeval) * E;
  ul_write : buffer -> E -> fprog;
  ll_write_op : buffer -> E -> fprog;
  ll_urgent : E -> E;
  setup : E -> Z * E;
  cleanup : E -> E;
  timeout : option (E -> E)
}.

(** [struct genio_ll_ops]: the operations whose result the endpoint uses.
    The enable toggles and [free] return nothing and are logged only. *)
Record genio_ll_ops : Type := {
  write : buffer -> E -> (Z * Z) * E;
  open : E -> Z * E;
  close : ll_close_done_fn -> Z -> E -> Z * E
}.

(** [struct genio_callbacks]: each callback yields its return value, the
    calls it makes on the endpoint before returning, and the user's new
    state. *)
Record genio_callbacks : Type := {
  read_callback : Z -> buffer -> E -> (Z * list user_op) * E;
  write_callback : E -> (unit * list user_op) * E;
  urgent_callback : option (E -> (unit * list user_op) * E)
}.

(** The endpoint's surroundings: what [genio_alloc] was given. *)
Record host : Type := {
  filter : option genio_filter_ops;       (* ndata->filter, ndata->filter_ops *)
  ll_ops : genio_ll_ops;                  (* ndata->ll, ndata->ll_ops *)
  cbs : option genio_callbacks;           (* ndata->net.cbs *)
  stop_timer_with_done : E -> Z * E;      (* ndata->o->stop_timer_with_done *)
  os_zalloc : E -> bool * E;              (* o->zalloc: false for NULL *)
  alloc_lock : E -> bool * E;             (* o->alloc_lock *)
  alloc_timer : E -> bool * E;            (* o->alloc_timer *)
  alloc_runner : E -> bool * E;           (* o->alloc_runner *)
  open_done_fn : fnptr -> Z -> Z -> E -> (unit * list user_op) * E;
  close_done_fn : fnptr -> Z -> E -> (unit * list user_op) * E;
  this : Z                                (* the address of ndata *)
}.

(** ** The monad of the embedding: state, trace, and faults *)

Record world : Type := mk_world {
  nd : basen_data;       (* the endpoint's fields *)
  env : E;               (* filter, LL, host and user *)
  trace : list event     (* the calls made so far, oldest first *)
}.

Inductive outcome (A : Type) : Type :=
| Ok (a : A) (w : world)
| Stop (f : fault) (w : world).

Arguments Ok {A} a w.
Arguments Stop {A} f w.

Definition M (A : Type) : Type := world -> outcome A.

Definition ret {A} (a : A) : M A := fun w => Ok a w.

Definition bind {A B} (m : M A) (k : A -> M B) : M B :=
  fun w => match m w with
           | Ok a w' => k a w'
           | Stop f w' => Stop f w'
           end.

Definition stop {A} (f : fault) : M A := fun w => Stop f w.

Definition get : M basen_data := fun w => Ok (nd w) w.

Definition modify (f : basen_data -> basen_data) : M unit :=
  fun w => Ok tt (mk_world (f (nd w)) (env w) (trace w)).

Definition emit (e : event) : M unit :=
  fun w => Ok tt (mk_world (nd w) (env w) (trace w ++ [e])).

(** A read-only query of the external state. *)
Definition query {A} (f : E -> A) : M A := fun w => Ok (f (env w)) w.

(** A call of an external operation: logged, then it changes the external
    state and returns. *)
Definition call {A} (e : event) (f : E -> A * E) : M A :=
  fun w => let (a, e') := f (env w) in
           Ok a (mk_world (nd w) e' (trace w ++ [e])).

Definition call_void (e : event) (f : E -> E) : M unit :=
  call e (fun x => (tt, f x)).

Definition assert (b : bool) : M unit :=
  if b then ret tt else stop AssertFailed.

Definition when (b : bool) (m : M unit) : M unit :=
  if b then m else ret tt.

End Types.

Arguments fprog : clear implicits.
Arguments genio_filter_ops : clear implicits.
Arguments genio_ll_ops : clear implicits.
Arguments genio_callbacks : clear implicits.
Arguments host : clear implicits.
Arguments world : clear implicits.
Arguments outcome : clear implicits.
Arguments M : clear implicits.
Arguments Ok {E A} a w.
Arguments Stop {E A} f w.

Notation "x <- m ;; k" := (bind m (fun x => k))
  (at level 61, m at next level, right associativity).
Notation "' pat <- m ;; k" := (bind m (fun x => match x with pat => k end))
  (at level 61, pat pattern, m at next level, right associativity).
Notation "m ;; k" := (bind m (fun _ => k))
  (at level 61, right associativity).

(** ** The endpoint's functions *)

Section Endpoint.

Context {E : Type}.

(** What [genio_alloc] was given. *)
Variable H : host E.

#[local] Abbreviation M := (M E).
#[local] Abbreviation fprog := (fprog E).
#[local] Abbreviation world := (world E).

(** ** Locking and reference counting *)

Definition basen_lock : M unit := emit EvLock.

Definition basen_unlock : M unit := emit EvUnlock.

(** [basen_finish_free] releases the lock, the timer, the runner, the
    filter, the LL and the object itself; it is logged as one event. *)
Definition basen_finish_free : M unit := emit EvFinishFree.

Definition basen_timer_stopped : M unit := basen_finish_free.

Definition basen_ref : M unit :=
  modify (fun d => set_refcount (uint_incr (refcount d)) d).

Definition basen_deref : M unit :=
  d <- get ;;
  assert (1 <? refcount d) ;;
  modify (set_refcount (refcount d - 1)).

Definition basen_deref_and_unlock : M unit :=
  d <- get ;;
  assert (0 <? refcount d) ;;
  let count := refcount d - 1 in
  modify (set_refcount count) ;;
  basen_unlock ;;
  if count =? 0 then
    err <- call EvStopTimer (stop_timer_with_done H) ;;
    if negb (err =? ETIMEDOUT) then ret tt else basen_finish_free
  else ret tt.

(** ** Wrappers around the filter, which may be absent *)

Definition filter_ul_read_pending : M bool :=
  match filter H with
  | Some f => query (ul_read_pending f)
  | None => ret false
  end.

Definition filter_ll_write_pending : M bool :=
  match filter H with
  | Some f => query (ll_write_pending f)
  | None => ret false
  end.

Definition filter_ll_read_needed : M bool :=
  match filter H with
  | Some f => query (ll_read_needed f)
  | None => ret false
  end.

Definition filter_check_open_done : M Z :=
  match filter H with
  | Some f => call EvFilterCheckOpenDone (check_open_done f)
  | None => ret 0
  end.

Definition filter_try_connect : M (Z * timeval) :=
  match filter H with
  | Some f => call EvFilterTryConnect (try_connect f)
  | None => ret (0, (0, 0))
  end.

Definition filter_try_disconnect : M (Z * timeval) :=
  match filter H with
  | Some f => call EvFilterTryDisconnect (try_disconnect f)
  | None => ret (0, (0, 0))
  end.

(** What those three queries answer in a given world. *)
Definition has_ul_pending (w : world) : bool :=
  match filter H with
  | Some f => ul_read_pending f (env w)
  | None => false
  end.

Definition has_ll_pending (w : world) : bool :=
  match filter H with
  | Some f => ll_write_pending f (env w)
  | None => false
  end.

Definition needs_ll_read (w : world) : bool :=
  match filter H with
  | Some f => ll_read_needed f (env w)
  | None => false
  end.

(** Running a filter's data-moving operation against a handler. *)
Fixpoint run_fprog (handler : buffer -> M (Z * Z)) (p : fprog) : M (Z * Z) :=
  match p with
  | FDone err rcount e =>
      fun w => Ok (err, rcount) (mk_world (nd w) e (trace w))
  | FHandler e buf k =>
      fun w =>
        match handler buf (mk_world (nd w) e (trace w)) with
        | Ok (herr, hcount) w' => run_fprog handler (k herr hcount (env w')) w'
        | Stop f w' => Stop f w'
        end
  end.

Definition filter_ul_write (handler : buffer -> M (Z * Z)) (buf : buffer)
  : M (Z * Z) :=
  match filter H with
  | Some f =>
      emit (EvFilterUlWrite buf) ;;
      fun w => run_fprog handler (ul_write f buf (env w)) w
  | None => handler buf
  end.

(** [rcount] tells whether the caller passed a count pointer; without a
    filter the handler stores through it. *)
Definition filter_ll_write (handler : buffer -> M (Z * Z)) (rcount : bool)
  (buf : buffer) : M (Z * Z) :=
  match filter H with
  | Some f =>
      emit (EvFilterLlWrite buf) ;;
      fun w => run_fprog handler (ll_write_op f buf (env w)) w
  | None =>
      r <- handler buf ;;
      if rcount then ret r else stop NullDeref
  end.

Definition filter_setup : M Z :=
  match filter H with
  | Some f => call EvFilterSetup (setup f)
  | None => ret 0
  end.

Definition filter_cleanup : M unit :=
  match filter H with
  | Some f => call_void EvFilterCleanup (cleanup f)
  | None => ret tt
  end.

(** ** Wrappers around the LL *)

Definition ll_write (buf : buffer) : M (Z * Z) :=
  call (EvLLWrite buf) (write (ll_ops H) buf).

Definition ll_open : M Z := call EvLLOpen (open (ll_ops H)).

Definition basen_sched_deferred_op : M unit :=
  d <- get ;;
  if negb (deferred_op_pending d) then
    modify (set_deferred_op_pending true) ;;
    basen_ref ;;
    emit EvRun
  else ret tt.

(** The LL's [close] is given [ndata] as its close data, whatever
    [close_data] the caller passed. *)
Definition ll_close (done : ll_close_done_fn) (close_data : Z) : M unit :=
  err <- call (EvLLClose done (this H)) (close (ll_ops H) done (this H)) ;;
  if err =? EINPROGRESS then basen_ref
  else
    modify (set_deferred_close true) ;;
    basen_sched_deferred_op.

Definition ll_set_read_callback_enable (enable : bool) : M unit :=
  emit (EvLLSetReadEnable enable).

Definition ll_set_write_callback_enable (enable : bool) : M unit :=
  emit (EvLLSetWriteEnable enable).

(** ** The enable arbiter *)

Definition basen_set_ll_enables : M unit :=
  wp <- filter_ll_write_pending ;;
  d <- get ;;
  when (wp || xmit_enabled d || tmp_xmit_enabled d)
    (ll_set_write_callback_enable true) ;;
  rp <- filter_ul_read_pending ;;
  rn <- filter_ll_read_needed ;;
  d <- get ;;
  when (((((read_enabled d && negb rp) || rn) && (state d =s? BASEN_OPEN))
         || (state d =s? BASEN_IN_FILTER_OPEN)
         || (state d =s? BASEN_IN_FILTER_CLOSE))
        && negb (in_read d))
    (ll_set_read_callback_enable true).

(** ** Write path *)

Definition basen_write_data_handler (buf : buffer) : M (Z * Z) :=
  ll_write buf.

(** The result is the error code and what was stored in [*rcount], if
    anything was. *)
Definition basen_write (buf : list byte) : M (Z * option Z) :=
  basen_lock ;;
  d <- get ;;
  r <- (if negb (state d =s? BASEN_OPEN) then ret (EBADF, None)
        else if negb (saved_xmit_err d =? 0) then
          modify (set_saved_xmit_err 0) ;;
          ret (saved_xmit_err d, None)
        else
          '(err, n) <- filter_ul_write basen_write_data_handler (Some buf) ;;
          ret (err, Some n)) ;;
  basen_set_ll_enables ;;
  basen_unlock ;;
  ret r.

(** ** Close path *)

Definition basen_try_close : M unit :=
  ll_set_write_callback_enable false ;;
  ll_set_read_callback_enable false ;;
  '(err, timeout) <- filter_try_disconnect ;;
  if err =? EINPROGRESS then ret tt
  else if err =? EAGAIN then emit (EvStartTimer timeout)
  else
    modify (set_state BASEN_IN_LL_CLOSE) ;;
    ll_close Basen_ll_close_done 0.

Definition basen_i_close (close_done : option fnptr) (close_data : Z)
  : M unit :=
  modify (set_close_done close_done) ;;
  modify (set_close_data close_data) ;;
  d <- get ;;
  (if ll_err_occurred d then
     modify (set_state BASEN_IN_LL_CLOSE) ;;
     ll_close Basen_ll_close_done 0
   else
     wp <- filter_ll_write_pending ;;
     if wp then modify (set_state BASEN_CLOSE_WAIT_DRAIN)
     else
       modify (set_state BASEN_IN_FILTER_CLOSE) ;;
       basen_try_close) ;;
  basen_set_ll_enables.

Definition basen_close (close_done : option fnptr) (close_data : Z) : M Z :=
  basen_lock ;;
  d <- get ;;
  err <- (if negb (state d =s? BASEN_OPEN) then
            if (state d =s? BASEN_IN_FILTER_OPEN)
               || (state d =s? BASEN_IN_LL_OPEN) then
              basen_i_close close_done close_data ;;
              basen_deref ;;
              ret 0
            else ret EBUSY
          else
            basen_i_close close_done close_data ;;
            ret 0) ;;
  basen_unlock ;;
  ret err.

Definition basen_free : M unit :=
  basen_lock ;;
  d <- get ;;
  assert (0 <? freeref d) ;;
  let n := freeref d - 1 in
  modify (set_freeref n) ;;
  if 0 <? n then basen_unlock
  else
    d <- get ;;
    (if (state d =s? BASEN_IN_FILTER_CLOSE)
        || (state d =s? BASEN_IN_LL_CLOSE) then
       modify (set_close_done None)
     else if (state d =s? BASEN_IN_FILTER_OPEN)
             || (state d =s? BASEN_IN_LL_OPEN) then
       basen_i_close None 0 ;;
       basen_deref
     else if negb (state d =s? BASEN_CLOSED) then basen_i_close None 0
     else ret tt) ;;
    basen_deref_and_unlock.

Definition basen_do_ref : M unit :=
  basen_lock ;;
  modify (fun d => set_freeref (uint_incr (freeref d)) d) ;;
  basen_unlock.

(** ** Open *)

Definition basen_open (open_done : option fnptr) (open_data : Z) : M Z :=
  basen_lock ;;
  d <- get ;;
  err <- (if state d =s? BASEN_CLOSED then
            err <- filter_setup ;;
            if negb (err =? 0) then ret err
            else
              modify (set_in_read false) ;;
              modify (set_deferred_read false) ;;
              modify (set_deferred_open false) ;;
              modify (set_deferred_close false) ;;
              modify (set_read_enabled false) ;;
              modify (set_xmit_enabled false) ;;
              modify (set_open_done open_done) ;;
              modify (set_open_data open_data) ;;
              err <- ll_open ;;
              if err =? 0 then
                modify (set_state BASEN_IN_FILTER_OPEN) ;;
                modify (set_deferred_open true) ;;
                basen_sched_deferred_op ;;
                ret err
              else if err =? EINPROGRESS then
                modify (set_state BASEN_IN_LL_OPEN) ;;
                basen_ref ;;
                ret 0
              else
                filter_cleanup ;;
                ret err
          else ret EBUSY) ;;
  basen_unlock ;;
  ret err.

(** ** The user's enable toggles *)

Definition basen_set_read_callback_enable (enabled : bool) : M unit :=
  basen_lock ;;
  d <- get ;;
  (if (state d =s? BASEN_CLOSED) || (state d =s? BASEN_IN_FILTER_CLOSE)
      || (state d =s? BASEN_IN_LL_CLOSE) then ret tt
   else
     modify (set_read_enabled enabled) ;;
     read_pending <- filter_ul_read_pending ;;
     d <- get ;;
     if in_read d || (state d =s? BASEN_IN_FILTER_OPEN)
        || (state d =s? BASEN_IN_LL_OPEN)
        || (read_pending && negb enabled) then ret tt
     else if read_pending then
       modify (set_in_read true) ;;
       modify (set_deferred_read true) ;;
       basen_sched_deferred_op
     else basen_set_ll_enables) ;;
  basen_unlock.

Definition basen_set_write_callback_enable (enabled : bool) : M unit :=
  basen_lock ;;
  d <- get ;;
  (if (state d =s? BASEN_CLOSED) || (state d =s? BASEN_IN_FILTER_CLOSE)
      || (state d =s? BASEN_IN_LL_CLOSE) then ret tt
   else if negb (Bool.eqb (xmit_enabled d) enabled) then
     modify (set_xmit_enabled enabled) ;;
     basen_set_ll_enables
   else ret tt) ;;
  basen_unlock.

(** ** User code re-entering the endpoint from a callback *)

Definition run_user_op (op : user_op) : M unit :=
  match op with
  | UWrite buf => basen_write buf ;; ret tt
  | UOpen open_done open_data => basen_open open_done open_data ;; ret tt
  | UClose close_done close_data =>
      basen_close close_done close_data ;; ret tt
  | UFree => basen_free
  | URef => basen_do_ref
  | USetReadCallbackEnable enabled => basen_set_read_callback_enable enabled
  | USetWriteCallbackEnable enabled => basen_set_write_callback_enable enabled
  end.

Fixpoint run_user_ops (ops : list user_op) : M unit :=
  match ops with
  | [] => ret tt
  | op :: ops' => run_user_op op ;; run_user_ops ops'
  end.

(** Invoking a user callback: the call is logged, the user's state changes,
    the calls the callback makes on the endpoint run, and it returns. *)
Definition user_call {A} (e : event) (f : E -> (A * list user_op) * E)
  : M A :=
  '(a, ops) <- call e f ;;
  run_user_ops ops ;;
  ret a.

(** ** Read path *)

Definition basen_read_data_handler (buf : buffer) : M (Z * Z) :=
  d <- get ;;
  if negb (state d =s? BASEN_OPEN) || negb (read_enabled d) then ret (0, 0)
  else
    match cbs H with
    | Some c =>
        n <- user_call (EvReadCallback 0 buf) (read_callback c 0 buf) ;;
        ret (0, n)
    | None => stop NullDeref
    end.

(** ** Completion of close and open *)

Definition basen_finish_close : M unit :=
  filter_cleanup ;;
  modify (set_state BASEN_CLOSED) ;;
  d <- get ;;
  match close_done d with
  | Some fn =>
      basen_unlock ;;
      user_call (EvCloseDone fn (close_data d))
                (close_done_fn H fn (close_data d)) ;;
      basen_lock
  | None => ret tt
  end.

Definition basen_finish_open (err : Z) : M unit :=
  (if negb (err =? 0) then
     modify (set_state BASEN_CLOSED) ;;
     filter_cleanup
   else modify (set_state BASEN_OPEN)) ;;
  d <- get ;;
  match open_done d with
  | Some fn =>
      basen_unlock ;;
      user_call (EvOpenDone fn err (open_data d))
                (open_done_fn H fn err (open_data d)) ;;
      basen_lock
  | None => ret tt
  end.

Definition basen_ll_close_done (close_data : Z) : M unit :=
  basen_lock ;;
  basen_finish_close ;;
  basen_deref_and_unlock.

Definition basen_ll_close_on_err (close_data : Z) : M unit :=
  basen_lock ;;
  basen_finish_open (int_of_long close_data) ;;
  basen_deref_and_unlock.

Definition basen_try_connect : M unit :=
  d <- get ;;
  assert (state d =s? BASEN_IN_FILTER_OPEN) ;;
  if negb (state d =s? BASEN_IN_FILTER_OPEN) then ret tt
  else
    ll_set_write_callback_enable false ;;
    ll_set_read_callback_enable false ;;
    '(err, timeout) <- filter_try_connect ;;
    if err =? EINPROGRESS then ret tt
    else if err =? EAGAIN then emit (EvStartTimer timeout)
    else
      err <- (if err =? 0 then filter_check_open_done else ret err) ;;
      if negb (err =? 0) then
        modify (set_state BASEN_IN_LL_CLOSE) ;;
        ll_close Basen_ll_close_on_err err
      else basen_finish_open 0.

Definition basen_ll_open_done (err : Z) : M unit :=
  basen_lock ;;
  (if negb (err =? 0) then basen_finish_open err
   else
     modify (set_state BASEN_IN_FILTER_OPEN) ;;
     basen_try_connect ;;
     basen_set_ll_enables) ;;
  basen_deref_and_unlock.

(** ** The deferred-op runner *)

(** The code between the label [retry] and the label [out_unlock]; each
    pass uses one unit of fuel. *)
Fixpoint basen_deferred_op_retry (fuel : nat) : M unit :=
  match fuel with
  | O => stop OutOfFuel
  | S fuel' =>
      d <- get ;;
      when (deferred_open d)
        (modify (set_deferred_open false) ;;
         basen_try_connect) ;;
      d <- get ;;
      when (deferred_close d)
        (modify (set_deferred_close false) ;;
         basen_finish_close) ;;
      d <- get ;;
      if deferred_read d && negb (state d =s? BASEN_OPEN) then ret tt
      else
        when (deferred_read d)
          (modify (set_deferred_read false) ;;
           basen_unlock ;;
           filter_ll_write basen_read_data_handler false None ;;
           basen_lock ;;
           modify (set_in_read false)) ;;
        d <- get ;;
        if deferred_read d || deferred_open d || deferred_close d
        then basen_deferred_op_retry fuel'
        else ret tt
  end.

Definition basen_deferred_op (fuel : nat) : M unit :=
  basen_lock ;;
  basen_deferred_op_retry fuel ;;
  modify (set_deferred_op_pending false) ;;
  basen_set_ll_enables ;;
  basen_deref_and_unlock.

(** ** Timer *)

Definition basen_timeout : M unit :=
  basen_lock ;;
  d <- get ;;
  match state d with
  | BASEN_IN_FILTER_OPEN => basen_try_connect
  | BASEN_IN_FILTER_CLOSE => basen_try_close
  | BASEN_OPEN =>
      match filter H with
      | Some f =>
          match timeout f with
          | Some t =>
              basen_unlock ;;
              call_void EvFilterTimeout t ;;
              basen_lock
          | None => ret tt
          end
      | None => stop NullDeref
      end
  | _ => ret tt
  end ;;
  basen_set_ll_enables ;;
  basen_unlock.

(** ** The callbacks the LL calls *)

Definition basen_ll_read (readerr : Z) (ibuf : list byte) : M Z :=
  basen_lock ;;
  ll_set_read_callback_enable false ;;
  if negb (readerr =? 0) then
    modify (set_read_enabled false) ;;
    modify (set_ll_err_occurred true) ;;
    d <- get ;;
    (if (state d =s? BASEN_IN_FILTER_OPEN)
        || (state d =s? BASEN_IN_LL_OPEN) then
       modify (set_state BASEN_IN_LL_CLOSE) ;;
       ll_close Basen_ll_close_on_err ECOMM
     else if (state d =s? BASEN_CLOSE_WAIT_DRAIN)
             || (state d =s? BASEN_IN_FILTER_CLOSE) then
       modify (set_state BASEN_IN_LL_CLOSE) ;;
       ll_close Basen_ll_close_done 0
     else
       match cbs H with
       | Some c =>
           basen_unlock ;;
           user_call (EvReadCallback readerr None)
                     (read_callback c readerr None) ;;
           basen_lock
       | None => basen_i_close None 0
       end) ;;
    basen_set_ll_enables ;;
    basen_unlock ;;
    ret 0
  else
    d <- get ;;
    if in_read d then
      basen_unlock ;;
      ret 0
    else
      wrlen <- (match ibuf with
                | [] => ret 0
                | _ :: _ =>
                    modify (set_in_read true) ;;
                    basen_unlock ;;
                    '(_, wrlen) <- filter_ll_write basen_read_data_handler
                                     true (Some ibuf) ;;
                    basen_lock ;;
                    modify (set_in_read false) ;;
                    d <- get ;;
                    when (state d =s? BASEN_IN_FILTER_OPEN)
                      basen_try_connect ;;
                    d <- get ;;
                    when (state d =s? BASEN_IN_FILTER_CLOSE)
                      basen_try_close ;;
                    ret wrlen
                end) ;;
      basen_set_ll_enables ;;
      basen_unlock ;;
      ret wrlen.

(** The part of [basen_ll_write_ready] before it decides whether to call
    the user: flush, and drive the handshakes. *)
Definition basen_ll_write_ready_flush : M unit :=
  basen_lock ;;
  ll_set_write_callback_enable false ;;
  wp <- filter_ll_write_pending ;;
  when wp
    ('(err, _) <- filter_ul_write basen_write_data_handler None ;;
     when (negb (err =? 0)) (modify (set_saved_xmit_err err))) ;;
  d <- get ;;
  wp <- filter_ll_write_pending ;;
  when ((state d =s? BASEN_CLOSE_WAIT_DRAIN) && negb wp)
    (modify (set_state BASEN_IN_FILTER_CLOSE)) ;;
  d <- get ;;
  when (state d =s? BASEN_IN_FILTER_OPEN) basen_try_connect ;;
  d <- get ;;
  when (state d =s? BASEN_IN_FILTER_CLOSE) basen_try_close.

(** The condition under which [basen_ll_write_ready] calls the user. *)
Definition write_callback_due (w : world) : bool :=
  negb (state (nd w) =s? BASEN_IN_FILTER_OPEN)
  && negb (has_ll_pending w)
  && xmit_enabled (nd w).

Definition basen_ll_write_ready_notify : M unit :=
  d <- get ;;
  wp <- filter_ll_write_pending ;;
  when (negb (state d =s? BASEN_IN_FILTER_OPEN) && negb wp && xmit_enabled d)
    (match cbs H with
     | Some c =>
         basen_unlock ;;
         user_call EvWriteCallback (write_callback c) ;;
         basen_lock
     | None =>
         basen_unlock ;;
         stop NullDeref
     end) ;;
  modify (set_tmp_xmit_enabled false) ;;
  basen_set_ll_enables ;;
  basen_unlock.

Definition basen_ll_write_ready : M unit :=
  basen_ll_write_ready_flush ;;
  basen_ll_write_ready_notify.

Definition filter_ll_urgent : M unit :=
  match filter H with
  | Some f => call_void EvFilterLlUrgent (ll_urgent f)
  | None =>
      match cbs H with
      | Some c =>
          match urgent_callback c with
          | Some u => user_call EvUrgentCallback u
          | None => ret tt
          end
      | None => stop NullDeref
      end
  end.

Definition basen_ll_urgent : M unit := filter_ll_urgent.

(** ** The callbacks the filter calls *)

Definition basen_output_ready : M unit := ll_set_write_callback_enable true.

Definition basen_start_timer (timeout : timeval) : M unit :=
  basen_lock ;;
  d <- get ;;
  when (state d =s? BASEN_OPEN) (emit (EvStartTimer timeout)) ;;
  basen_unlock.

(** ** Allocation *)

(** The object [o->zalloc] returns: every field zero. *)
Definition zalloc : basen_data :=
  mk_basen_data 0 0 BASEN_CLOSED None 0 None 0 false false false false 0
    false false false false false.

(** The label [out_nomem]. *)
Definition out_nomem : M (option unit) :=
  basen_finish_free ;;
  ret None.

(** [genio_alloc] returns the object ([Some tt]) or NULL ([None]).  It asks
    the host for the object, the lock, the timer and the runner, in this
    order, and gives up at the first NULL; it then hands its callbacks to
    the filter, if there is one, and to the LL.  A client is born closed; a
    server is born in the filter handshake, which its first write-ready
    callback starts. *)
Definition genio_alloc (is_client : bool) (open_done : option fnptr)
  (open_data : Z) : M (option unit) :=
  ndata <- call EvZalloc (os_zalloc H) ;;
  if negb ndata then ret None
  else
    modify (fun _ => set_freeref 1 (set_refcount 1 zalloc)) ;;
    lock <- call EvAllocLock (alloc_lock H) ;;
    if negb lock then out_nomem
    else
      timer <- call EvAllocTimer (alloc_timer H) ;;
      if negb timer then out_nomem
      else
        runner <- call EvAllocRunner (alloc_runner H) ;;
        if negb runner then out_nomem
        else
          match filter H with
          | Some _ => emit EvFilterSetCallbacks
          | None => ret tt
          end ;;
          emit EvLLSetCallbacks ;;
          if is_client then
            modify (set_state BASEN_CLOSED) ;;
            ret (Some tt)
          else
            err <- filter_setup ;;
            if negb (err =? 0) then out_nomem
            else
              modify (set_open_done open_done) ;;
              modify (set_open_data open_data) ;;
              modify (set_state BASEN_IN_FILTER_OPEN) ;;
              modify (set_tmp_xmit_enabled true) ;;
              basen_set_ll_enables ;;
              ret (Some tt).

(** ** What the host, the LL, the filter and the user may do to the
    endpoint *)

Inductive input : Type :=
| InUser (op : user_op)
| InLLRead (readerr : Z) (buf : list byte)
| InLLWriteReady
| InLLUrgent
| InLLOpenDone (err : Z)
| InLLCloseDone (done : ll_close_done_fn) (close_data : Z)
| InDeferredOp (fuel : nat)
| InTimeout
| InTimerStopped
| InFilterOutputReady
| InFilterStartTimer (timeout : timeval).

Definition deliver (i : input) : M unit :=
  match i with
  | InUser op => run_user_op op
  | InLLRead readerr buf => basen_ll_read readerr buf ;; ret tt
  | InLLWriteReady => basen_ll_write_ready
  | InLLUrgent => basen_ll_urgent
  | InLLOpenDone err => basen_ll_open_done err
  | InLLCloseDone Basen_ll_close_done close_data =>
      basen_ll_close_done close_data
  | InLLCloseDone Basen_ll_close_on_err close_data =>
      basen_ll_close_on_err close_data
  | InDeferredOp fuel => basen_deferred_op fuel
  | InTimeout => basen_timeout
  | InTimerStopped => basen_timer_stopped
  | InFilterOutputReady => basen_output_ready
  | InFilterStartTimer timeout => basen_start_timer timeout
  end.

Fixpoint deliver_all (l : list input) : M unit :=
  match l with
  | [] => ret tt
  | i :: l' => deliver i ;; deliver_all l'
  end.

End Endpoint.

(** ** Test doubles

    A small concrete surrounding, used to run the endpoint on examples: the
    external state is the sequence of bytes the LL has put on the wire. *)

Definition wire : Type := list byte.

Definition buffer_length (buf : buffer) : Z :=
  match buf with
  | Some l => Z.of_nat (length l)
  | None => 0
  end.

(** A callback that returns [a] and calls nothing. *)
Definition quiet {A} (a : A) : wire -> (A * list user_op) * wire :=
  fun e => ((a, []), e).

(** An LL that accepts every byte; [open] and [close] return the given
    codes. *)
Definition wire_ll (open_result close_result : Z) : genio_ll_ops wire :=
  {| write := fun buf e =>
       ((0, buffer_length buf),
        e ++ match buf with Some l => l | None => [] end);
     open := fun e => (open_result, e);
     close := fun _ _ e => (close_result, e) |}.

(** A filter that passes data through unchanged; its handshake steps return
    the given codes, and it reports LL-bound data as told. *)
Definition handshake_filter (connect disconnect : Z) (pending : bool)
  : genio_filter_ops wire :=
  {| ul_read_pending := fun _ => false;
     ll_write_pending := fun _ => pending;
     ll_read_needed := fun _ => false;
     check_open_done := fun e => (0, e);
     try_connect := fun e => ((connect, (0, 0)), e);
     try_disconnect := fun e => ((disconnect, (0, 0)), e);
     ul_write := fun buf e => FHandler e buf (fun err n e' => FDone err n e');
     ll_write_op := fun buf e =>
       FHandler e buf (fun err n e' => FDone err n e');
     ll_urgent := fun e => e;
     setup := fun e => (0, e);
     cleanup := fun e => e;
     timeout := None |}.

(** User callbacks that take all data and call nothing. *)
Definition plain_cbs : genio_callbacks wire :=
  {| read_callback := fun _ buf => quiet (buffer_length buf);
     write_callback := quiet tt;
     urgent_callback := None |}.

Definition demo_host (flt : option (genio_filter_ops wire))
  (ll : genio_ll_ops wire) (c : option (genio_callbacks wire)) : host wire :=
  {| filter := flt;
     ll_ops := ll;
     cbs := c;
     stop_timer_with_done := fun e => (ETIMEDOUT, e);
     os_zalloc := fun e => (true, e);
     alloc_lock := fun e => (true, e);
     alloc_timer := fun e => (true, e);
     alloc_runner := fun e => (true, e);
     open_done_fn := fun _ _ _ => quiet tt;
     close_done_fn := fun _ _ => quiet tt;
     this := 4096 |}.

(** An endpoint in state [s] with [r] internal references, one user
    reference, and nothing else set. *)
Definition endpoint_in (s : basen_state) (r : Z) : basen_data :=
  set_state s (set_freeref 1 (set_refcount r zalloc)).

Definition fresh (d : basen_data) : world wire := mk_world d [] [].

(** ** Vocabulary of the specification *)

(** The number of events of a kind in a stretch of the trace. *)
Definition count (P : event -> bool) (l : list event) : nat :=
  length (List.filter P l).

(** The world after some more calls were logged. *)
Definition logged {E : Type} (l : list event) (w : world E) : world E :=
  mk_world (nd w) (env w) (trace w ++ l).

(** "An opening state": [OpeningLL] or [OpeningFilter]. *)
Definition is_opening (s : basen_state) : bool :=
  (s =s? BASEN_IN_LL_OPEN) || (s =s? BASEN_IN_FILTER_OPEN).

Section Vocabulary.

Context {E : Type}.
Variable H : host E.

(** Section 4.3 of the specification, in its words: LL write should be
    enabled if the filter has LL-bound bytes pending or [xmit_enabled] or
    [tmp_xmit_enabled]. *)
Definition ll_write_wanted (w : world E) : bool :=
  has_ll_pending H w || xmit_enabled (nd w) || tmp_xmit_enabled (nd w).

(** LL read should be enabled if [in_read] is false and either the state is
    [Open] and (([read_enabled] and the filter has no UL-pending bytes) or
    the filter signals [ll_read_needed]), or the state is [OpeningFilter]
    or [ClosingFilter]. *)
Definition ll_read_wanted (w : world E) : bool :=
  negb (in_read (nd w))
  && (((state (nd w) =s? BASEN_OPEN)
       && ((read_enabled (nd w) && negb (has_ul_pending H w))
           || needs_ll_read H w))
      || ((state (nd w) =s? BASEN_IN_FILTER_OPEN)
          || (state (nd w) =s? BASEN_IN_FILTER_CLOSE))).

(** What the arbiter logs in world [w]. *)
Definition ll_enables (w : world E) : list event :=
  (if ll_write_wanted w then [EvLLSetWriteEnable true] else [])
  ++ (if ll_read_wanted w then [EvLLSetReadEnable true] else []).

End Vocabulary.

(** ** Safety of runs

    A run is safe for an invariant [ok] of the endpoint's fields and a kind
    [P] of call when, started where [ok] holds, it ends (by returning or by
    a fault) where [ok] holds, having made no call of kind [P]. *)

Definition final {E A : Type} (o : outcome E A) : world E :=
  match o with
  | Ok _ w => w
  | Stop _ w => w
  end.

Section Safety.

Context {E : Type}.
Variable ok : basen_data -> Prop.
Variable P : event -> bool.

Definition extends (w0 w : world E) : Prop :=
  exists evs, trace w = trace w0 ++ evs /\ count P evs = 0%nat.

Definition safe_from {A} (w0 : world E) (m : M E A) (w : world E) : Prop :=
  ok (nd w) -> extends w0 w ->
  ok (nd (final (m w))) /\ extends w0 (final (m w)).

Definition safe {A} (m : M E A) : Prop :=
  forall w0 w, safe_from w0 m w.

End Safety.

(** The calls a user callback makes on the endpoint before it returns. *)
Definition script_of {E A : Type} (r : (A * list user_op) * E)
  : list user_op :=
  snd (fst r).

(** Every call that any user callback of host [H] makes on the endpoint is
    one that [allow] admits. *)
Definition scripts_allow {E : Type} (allow : user_op -> bool) (H : host E)
  : Prop :=
  (forall c, cbs H = Some c ->
     (forall err buf e,
         forallb allow (script_of (read_callback c err buf e)) = true)
     /\ (forall e, forallb allow (script_of (write_callback c e)) = true)
     /\ (forall u, urgent_callback c = Some u ->
         forall e, forallb allow (script_of (u e)) = true))
  /\ (forall fn err data e,
         forallb allow (script_of (open_done_fn H fn err data e)) = true)
  /\ (forall fn data e,
         forallb allow (script_of (close_done_fn H fn data e)) = true).

(** The inputs of the close path: everything but a new open by the user,
    the LL's open-done callback and the completion of an LL close that was
    issued for a failed open. *)
Definition close_side (i : input) : bool :=
  match i with
  | InUser op => negb (is_UOpen op)
  | InLLOpenDone _ => false
  | InLLCloseDone Basen_ll_close_on_err _ => false
  | _ => true
  end.

Definition not_open (op : user_op) : bool := negb (is_UOpen op).

(** ** The statements under test that the code does not meet *)

Section AsClaimed.

Context {E : Type}.
Variable H : host E.

(** The world in which [basen_i_close] calls [basen_try_close]. *)
Definition about_to_disconnect (cd : option fnptr) (data : Z) (w : world E)
  : world E :=
  mk_world
    (set_state BASEN_IN_FILTER_CLOSE
       (set_close_data data (set_close_done cd (nd w))))
    (env w) (trace w).

(** What the filter's [try_disconnect] returns in world [w]. *)
Definition disconnect_result (w : world E) : Z :=
  match filter H with
  | Some f => fst (fst (try_disconnect f (env w)))
  | None => 0
  end.

(** A handshake step that has not finished: in progress, or to be retried
    after a timeout. *)
Definition handshake_pending (err : Z) : bool :=
  (err =? EINPROGRESS) || (err =? EAGAIN).

(** Section 4.1: a close accepted while opening supersedes the pending
    [open_done], whatever happens afterwards. *)
Definition open_done_superseded (w : world E) : Prop :=
  is_opening (state (nd w)) = true ->
  forall cd data w1,
    basen_close H cd data w = Ok 0 w1 ->
    forall l,
      count is_open_done (trace (final (deliver_all H l w1)))
      = count is_open_done (trace w1).


(** Section 4.2, step 6 of the write-ready callback: the user is called if
    [xmit_enabled], no pending filter bytes, and the state is not an
    opening state. *)
Definition write_callback_due_as_claimed (w : world E) : bool :=
  xmit_enabled (nd w) && negb (has_ll_pending H w)
  && negb (is_opening (state (nd w))).

Definition write_ready_rule_as_claimed (w : world E) : Prop :=
  match basen_ll_write_ready_flush H w with
  | Ok _ w1 =>
      count is_write_callback (trace (final (basen_ll_write_ready H w)))
      = (count is_write_callback (trace w)
         + if write_callback_due_as_claimed w1 then 1 else 0)%nat
  | Stop _ _ => True
  end.

End AsClaimed.

(** ** Example worlds *)

(** Client side, no filter; the LL finishes [open] and [close] at once. *)
Definition plain_host : host wire :=
  demo_host None (wire_ll 0 0) (Some plain_cbs).

(** Client side, no filter; the LL finishes [open] and [close] later. *)
Definition async_host : host wire :=
  demo_host None (wire_ll EINPROGRESS EINPROGRESS) (Some plain_cbs).

(** Server side: a filter whose handshakes are in progress, and no user
    callbacks yet. *)
Definition server_host : host wire :=
  demo_host (Some (handshake_filter EINPROGRESS EINPROGRESS false))
    (wire_ll 0 EINPROGRESS) None.

(** An endpoint in the filter handshake, with [open_done] pending. *)
Definition opening_filter : world wire :=
  fresh (set_open_done (Some 7%nat) (endpoint_in BASEN_IN_FILTER_OPEN 1)).

(** An endpoint waiting for the LL's [open], with [open_done] pending and
    the reference held for the LL call. *)
Definition opening_ll : world wire :=
  fresh (set_open_done (Some 7%nat) (endpoint_in BASEN_IN_LL_OPEN 2)).

(** An open endpoint with a write error saved by an earlier drain. *)
Definition open_with_saved_error : world wire :=
  fresh (set_saved_xmit_err 32 (endpoint_in BASEN_OPEN 1)).

(** An endpoint waiting for the LL's [open] whose user asked for
    write-ready callbacks. *)
Definition opening_ll_xmit : world wire :=
  fresh (set_xmit_enabled true (endpoint_in BASEN_IN_LL_OPEN 2)).

(** An open endpoint whose user asked for write-ready callbacks. *)
Definition open_xmit : world wire :=
  fresh (set_xmit_enabled true (endpoint_in BASEN_OPEN 1)).

(** The world a close accepted in OpeningLL leaves. *)
Definition closed_while_opening : world wire :=
  final (basen_close async_host (Some 9%nat) 0 opening_ll).

(** ** The lock, as the trace shows it

    [lock_after held evs] follows the lock through the calls [evs]: it is
    [None] if the lock is taken while held, released while not held, or
    held when user code is called; otherwise it tells whether the lock is
    held in the end. *)
Fixpoint lock_after (held : bool) (evs : list event) : option bool :=
  match evs with
  | [] => Some held
  | EvLock :: evs' => if held then None else lock_after true evs'
  | EvUnlock :: evs' => if held then lock_after false evs' else None
  | e :: evs' =>
      if is_user_callback e && held then None else lock_after held evs'
  end.

Section LockRuns.

Context {E : Type}.

(** From [w0], where the lock state was [b0], the run has reached [w] with
    the lock in state [b] and no violation. *)
Definition locked_run (b0 : bool) (w0 w : world E) (b : bool) : Prop :=
  exists evs, trace w = trace w0 ++ evs /\ lock_after b0 evs = Some b.

Definition lk_from {A} (b0 : bool) (w0 : world E) (b b' : bool)
  (m : M E A) (w : world E) : Prop :=
  locked_run b0 w0 w b ->
  match m w with
  | Ok _ w' => locked_run b0 w0 w' b'
  | Stop _ w' => exists b'', locked_run b0 w0 w' b''
  end.

(** [m] may be called with the lock in state [b]; it violates nothing and
    returns with the lock in state [b']. *)
Definition lk {A} (b b' : bool) (m : M E A) : Prop :=
  forall b0 w0 w, lk_from b0 w0 b b' m w.

End LockRuns.

(** A state on the way down: draining, in the filter's or the LL's close,
    or closed. *)
Definition closing_or_closed (s : basen_state) : bool :=
  match s with
  | BASEN_CLOSE_WAIT_DRAIN | BASEN_IN_FILTER_CLOSE | BASEN_IN_LL_CLOSE
  | BASEN_CLOSED => true
  | _ => false
  end.

(** The largest value of an [unsigned int]. *)
Definition UINT_MAX : Z := UINT_MOD - 1.

Section Oracles.

Context {E : Type}.
Variable H : host E.

(** What [filter_setup] returns and leaves in external state [e]. *)
Definition setup_result (e : E) : Z * E :=
  match filter H with
  | Some f => setup f e
  | None => (0, e)
  end.

(** The fields [basen_open] resets before it opens the LL. *)
Definition reset_for_open (open_done : option fnptr) (open_data : Z)
  (d : basen_data) : basen_data :=
  set_open_data open_data
    (set_open_done open_done
       (set_xmit_enabled false
          (set_read_enabled false
             (set_deferred_close false
                (set_deferred_open false
                   (set_deferred_read false (set_in_read false d))))))).

End Oracles.

Definition is_ll_open (e : event) : bool :=
  match e with EvLLOpen => true | _ => false end.

Definition is_filter_cleanup (e : event) : bool :=
  match e with EvFilterCleanup => true | _ => false end.

Definition is_finish_free (e : event) : bool :=
  match e with EvFinishFree => true | _ => false end.

(** An endpoint past its close handshake whose user holds the last
    reference, with a close callback registered. *)
Definition closing_ll_world : world wire :=
  fresh (set_close_done (Some 9%nat) (endpoint_in BASEN_IN_LL_CLOSE 2)).

Section MoreOracles.

Context {E : Type}.
Variable H : host E.

(** What [filter_cleanup] logs, and the external state it leaves. *)
Definition cleanup_events : list event :=
  if filter H is Some _ then [EvFilterCleanup] else [].

Definition cleanup_result (e : E) : E :=
  match filter H with
  | Some f => cleanup f e
  | None => e
  end.

(** What [filter_try_connect] and [filter_check_open_done] return and
    leave. *)
Definition connect_result (e : E) : (Z * timeval) * E :=
  match filter H with
  | Some f => try_connect f e
  | None => ((0, (0, 0)), e)
  end.

Definition check_result (e : E) : Z * E :=
  match filter H with
  | Some f => check_open_done f e
  | None => (0, e)
  end.

(** The first part of [basen_ll_write_ready]: with the lock taken and LL
    write interest off, flush the filter if it holds LL-bound bytes and
    save the error of the flush. *)
Definition basen_ll_write_ready_drain : M E unit :=
  basen_lock ;;
  ll_set_write_callback_enable false ;;
  wp <- filter_ll_write_pending H ;;
  when wp
    ('(err, _) <- filter_ul_write H (basen_write_data_handler H) None ;;
     when (negb (err =? 0)) (modify (set_saved_xmit_err err))).

End MoreOracles.

(** A filter that holds the user's bytes until it is flushed; the external
    state is what it holds.  A flush hands everything to the handler. *)
Definition holding_filter : genio_filter_ops wire :=
  {| ul_read_pending := fun _ => false;
     ll_write_pending := fun e => match e with [] => false | _ => true end;
     ll_read_needed := fun _ => false;
     check_open_done := fun e => (0, e);
     try_connect := fun e => ((0, (0, 0)), e);
     try_disconnect := fun e => ((EINPROGRESS, (0, 0)), e);
     ul_write := fun buf e =>
       match buf with
       | Some l => FDone 0 (Z.of_nat (length l)) (e ++ l)
       | None => FHandler [] (Some e) (fun err n e' => FDone err n e')
       end;
     ll_write_op := fun buf e =>
       FHandler e buf (fun err n e' => FDone err n e');
     ll_urgent := fun e => e;
     setup := fun e => (0, e);
     cleanup := fun e => e;
     timeout := None |}.

(** An LL that takes every byte and keeps none; its [close] finishes
    later. *)
Definition sink_ll : genio_ll_ops wire :=
  {| write := fun buf e => ((0, buffer_length buf), e);
     open := fun e => (0, e);
     close := fun _ _ e => (EINPROGRESS, e) |}.

Definition holding_host : host wire :=
  demo_host (Some holding_filter) sink_ll (Some plain_cbs).

(** An open endpoint whose filter holds one byte, after the user closed
    it: the close waits for the drain. *)
Definition draining_world : world wire :=
  final (basen_close holding_host (Some 9%nat) 0
           (mk_world (endpoint_in BASEN_OPEN 1) ["h"%byte] [])).

(** The states in which the endpoint has no use for its timer: neither
    Open nor in one of the filter's handshakes. *)
Definition timer_idle (s : basen_state) : bool :=
  match s with
  | BASEN_OPEN | BASEN_IN_FILTER_OPEN | BASEN_IN_FILTER_CLOSE => false
  | _ => true
  end.

(** ** Runs that do not run out of fuel *)

Section Steady.

Context {E : Type}.

(** Run [m] from [w]: if it returns, [post] holds of the result; if it
    stops, it is not for lack of fuel. *)
Definition st_at {A} (post : A -> world E -> Prop) (m : M E A) (w : world E)
  : Prop :=
  match m w with
  | Ok a w' => post a w'
  | Stop f _ => f <> OutOfFuel
  end.

(** [m] keeps the invariant [ok] of the fields and never runs out of
    fuel. *)
Definition steady {A} (ok : basen_data -> Prop) (m : M E A) : Prop :=
  forall w, ok (nd w) -> st_at (fun _ w' => ok (nd w')) m w.

End Steady.

(** A callback that calls nothing: the only script [no_calls] admits is the
    empty one. *)
Definition no_calls (op : user_op) : bool := false.

(** * Properties *)

(** ** Tactics: unfolding the monad, and reading fields of updated records *)

Tactic Notation "fields" :=
  cbn [nd env trace final fst snd refcount freeref state open_done open_data
       close_done close_data read_enabled in_read xmit_enabled
       tmp_xmit_enabled saved_xmit_err ll_err_occurred deferred_op_pending
       deferred_read deferred_open deferred_close set_refcount set_freeref
       set_state set_open_done set_open_data set_close_done set_close_data
       set_read_enabled set_in_read set_xmit_enabled set_tmp_xmit_enabled
       set_saved_xmit_err set_ll_err_occurred set_deferred_op_pending
       set_deferred_read set_deferred_open set_deferred_close].

Tactic Notation "fields" "in" hyp(Hyp) :=
  cbn [nd env trace final fst snd refcount freeref state open_done open_data
       close_done close_data read_enabled in_read xmit_enabled
       tmp_xmit_enabled saved_xmit_err ll_err_occurred deferred_op_pending
       deferred_read deferred_open deferred_close set_refcount set_freeref
       set_state set_open_done set_open_data set_close_done set_close_data
       set_read_enabled set_in_read set_xmit_enabled set_tmp_xmit_enabled
       set_saved_xmit_err set_ll_err_occurred set_deferred_op_pending
       set_deferred_read set_deferred_open set_deferred_close] in Hyp.

Ltac mred :=
  cbv [bind ret get modify emit query call call_void when assert stop
       basen_lock basen_unlock basen_ref ll_set_write_callback_enable
       ll_set_read_callback_enable logged];
  fields.

Ltac mred_in Hyp :=
  cbv [bind ret get modify emit query call call_void when assert stop
       basen_lock basen_unlock basen_ref ll_set_write_callback_enable
       ll_set_read_callback_enable basen_finish_free logged] in Hyp;
  fields in Hyp.

(** ** Counting events *)

Lemma count_app P l1 l2 : count P (l1 ++ l2) = (count P l1 + count P l2)%nat.
Proof. unfold count. now rewrite filter_app, length_app. Qed.

Lemma count_cons P e l :
  count P (e :: l) = ((if P e then 1 else 0) + count P l)%nat.
Proof. unfold count. cbn. now destruct (P e). Qed.

Lemma basen_state_eqb_eq a b : (a =s? b) = true <-> a = b.
Proof. destruct a, b; cbn; split; congruence. Qed.

Section Direct.

Context {E : Type}.
Variable H : host E.

Lemma logged_nil (w : world E) : logged [] w = w.
Proof. destruct w. unfold logged. cbn. now rewrite app_nil_r. Qed.

Lemma count_ll_enables P (w : world E) :
  P (EvLLSetWriteEnable true) = false -> P (EvLLSetReadEnable true) = false ->
  count P (ll_enables H w) = 0%nat.
Proof.
  intros Hw Hr. unfold ll_enables, count.
  destruct (ll_write_wanted H w), (ll_read_wanted H w); cbn;
    rewrite ?Hw, ?Hr; reflexivity.
Qed.

(** The arbiter looks at the fields and at the filter only. *)
Lemma ll_enables_trace d (e : E) t t' :
  ll_enables H (mk_world d e t) = ll_enables H (mk_world d e t').
Proof. reflexivity. Qed.

Lemma basen_set_ll_enables_eq (w : world E) :
  basen_set_ll_enables H w = Ok tt (logged (ll_enables H w) w).
Proof.
  destruct w as [d e t].
  unfold basen_set_ll_enables, ll_enables, ll_write_wanted, ll_read_wanted,
    has_ll_pending, has_ul_pending, needs_ll_read, filter_ll_write_pending,
    filter_ul_read_pending, filter_ll_read_needed.
  destruct (filter H) as [f|]; mred.
  - destruct (ll_write_pending f e), (xmit_enabled d), (tmp_xmit_enabled d);
      cbn;
      destruct (ul_read_pending f e), (ll_read_needed f e), (read_enabled d),
        (in_read d), (state d); cbn;
      rewrite ?app_nil_r, <- ?app_assoc; reflexivity.
  - destruct (xmit_enabled d), (tmp_xmit_enabled d); cbn;
      destruct (read_enabled d), (in_read d), (state d); cbn;
      rewrite ?app_nil_r, <- ?app_assoc; reflexivity.
Qed.

Lemma filter_ll_write_pending_eq (w : world E) :
  filter_ll_write_pending H w = Ok (has_ll_pending H w) w.
Proof.
  unfold filter_ll_write_pending, has_ll_pending.
  destruct (filter H); reflexivity.
Qed.

Lemma filter_ul_read_pending_eq (w : world E) :
  filter_ul_read_pending H w = Ok (has_ul_pending H w) w.
Proof.
  unfold filter_ul_read_pending, has_ul_pending.
  destruct (filter H); reflexivity.
Qed.


Lemma basen_sched_deferred_op_eq (w : world E) :
  basen_sched_deferred_op w =
  Ok tt (if deferred_op_pending (nd w) then w
         else mk_world
                (set_refcount (uint_incr (refcount (nd w)))
                   (set_deferred_op_pending true (nd w)))
                (env w) (trace w ++ [EvRun])).
Proof.
  destruct w as [d e t]. unfold basen_sched_deferred_op. mred.
  destruct (deferred_op_pending d); reflexivity.
Qed.

(** What [ll_close] leaves behind: the LL's [close] was called once, with
    [ndata] as its data, and the closing fields are as before. *)
Lemma ll_close_effect done cd (w : world E) :
  exists w' evs,
    ll_close H done cd w = Ok tt w'
    /\ trace w' = trace w ++ EvLLClose done (this H) :: evs
    /\ (evs = [] \/ evs = [EvRun])
    /\ env w' = snd (close (ll_ops H) done (this H) (env w))
    /\ state (nd w') = state (nd w)
    /\ close_done (nd w') = close_done (nd w)
    /\ close_data (nd w') = close_data (nd w).
Proof.
  destruct w as [d e t]. unfold ll_close. mred.
  destruct (close (ll_ops H) done (this H) e) as [r e'].
  destruct (r =? EINPROGRESS).
  - eexists _, []; cbn; repeat split; auto.
  - rewrite basen_sched_deferred_op_eq. fields.
    destruct (deferred_op_pending _); cbn.
    + eexists _, []; cbn; repeat split; auto.
    + eexists _, [EvRun]; cbn; repeat split; auto.
      now rewrite <- app_assoc.
Qed.

Lemma basen_try_close_effect (w : world E) :
  exists w' evs,
    basen_try_close H w = Ok tt w'
    /\ trace w' = trace w ++ evs
    /\ count is_try_disconnect evs = (if filter H is Some _ then 1 else 0)%nat
    /\ close_done (nd w') = close_done (nd w)
    /\ close_data (nd w') = close_data (nd w)
    /\ if handshake_pending (disconnect_result H w)
       then state (nd w') = state (nd w) /\ count is_ll_close evs = 0%nat
       else state (nd w') = BASEN_IN_LL_CLOSE
            /\ count is_ll_close evs = 1%nat.
Proof.
  destruct w as [d e t].
  unfold basen_try_close, filter_try_disconnect, disconnect_result,
    handshake_pending.
  destruct (filter H) as [f|]; mred.
  - destruct (try_disconnect f e) as [[err tv] e']. fields.
    destruct (err =? EINPROGRESS); [|destruct (err =? EAGAIN)]; cbn [orb].
    + eexists _, _; split; [reflexivity|]. cbn.
      split; [rewrite <- !app_assoc; reflexivity|]. cbn. auto.
    + eexists _, _; split; [reflexivity|]. cbn.
      split; [rewrite <- !app_assoc; reflexivity|]. cbn. auto.
    + match goal with
      | |- context [ll_close H ?a ?b ?w] =>
          destruct (ll_close_effect a b w)
            as (w' & evs & -> & Ht & Hevs & _ & Hs & Hcd & Hdt)
      end.
      fields. fields in Ht. fields in Hs. fields in Hcd. fields in Hdt.
      eexists _, _; split; [reflexivity|].
      rewrite Ht, Hs, Hcd, Hdt, <- !app_assoc. cbn. split; [reflexivity|].
      destruct Hevs as [-> | ->]; cbn; auto.
  - cbn [Z.eqb EINPROGRESS EAGAIN Pos.eqb orb].
    match goal with
    | |- context [ll_close H ?a ?b ?w] =>
        destruct (ll_close_effect a b w)
          as (w' & evs & -> & Ht & Hevs & _ & Hs & Hcd & Hdt)
    end.
    fields. fields in Ht. fields in Hs. fields in Hcd. fields in Hdt.
    eexists _, _; split; [reflexivity|].
    rewrite Ht, Hs, Hcd, Hdt, <- !app_assoc. cbn. split; [reflexivity|].
    destruct Hevs as [-> | ->]; cbn; auto.
Qed.

(** The three ways [basen_i_close] goes. *)
Lemma basen_i_close_effect (cd : option fnptr) (data : Z) (w : world E) :
  exists w' evs,
    basen_i_close H cd data w = Ok tt w'
    /\ trace w' = trace w ++ evs
    /\ close_done (nd w') = cd
    /\ close_data (nd w') = data
    /\ if ll_err_occurred (nd w) then
         state (nd w') = BASEN_IN_LL_CLOSE
         /\ count is_ll_close evs = 1%nat
         /\ count is_try_disconnect evs = 0%nat
       else if has_ll_pending H w then
         state (nd w') = BASEN_CLOSE_WAIT_DRAIN
         /\ count is_ll_close evs = 0%nat
         /\ count is_try_disconnect evs = 0%nat
       else
         state (nd (about_to_disconnect cd data w)) = BASEN_IN_FILTER_CLOSE
         /\ basen_i_close H cd data w
            = (basen_try_close H ;; basen_set_ll_enables H)
                (about_to_disconnect cd data w)
         /\ count is_try_disconnect evs
            = (if filter H is Some _ then 1 else 0)%nat
         /\ if handshake_pending (disconnect_result H w)
            then state (nd w') = BASEN_IN_FILTER_CLOSE
                 /\ count is_ll_close evs = 0%nat
            else state (nd w') = BASEN_IN_LL_CLOSE
                 /\ count is_ll_close evs = 1%nat.
Proof.
  destruct w as [d e t].
  unfold basen_i_close, about_to_disconnect. mred.
  destruct (ll_err_occurred d) eqn:Herr.
  - match goal with
    | |- context [ll_close H ?a ?b ?w] =>
        destruct (ll_close_effect a b w)
          as (w' & evs & -> & Ht & Hevs & _ & Hs & Hcd & Hdt)
    end.
    rewrite basen_set_ll_enables_eq.
    fields in Ht. fields in Hs. fields in Hcd. fields in Hdt.
    eexists _, _; split; [reflexivity|]. unfold logged. fields.
    rewrite Ht, Hs, Hcd, Hdt, <- !app_assoc.
    split; [reflexivity|]. do 3 (split; [reflexivity|]).
    rewrite !count_app, count_cons, !count_ll_enables by reflexivity.
    destruct Hevs as [-> | ->]; cbn; auto.
  - rewrite filter_ll_write_pending_eq. unfold has_ll_pending. fields.
    destruct (match filter H with
              | Some f => ll_write_pending f e
              | None => false
              end); mred.
    + rewrite basen_set_ll_enables_eq. unfold logged. fields.
      eexists _, _; split; [reflexivity|]. fields. split; [reflexivity|].
      rewrite !count_ll_enables by reflexivity. auto.
    + match goal with
      | |- context [basen_try_close H ?w] =>
          destruct (basen_try_close_effect w)
            as (w' & evs & Heq & Ht & Hn & Hcd & Hdt & Hst)
      end.
      rewrite Heq, basen_set_ll_enables_eq. unfold logged. fields.
      fields in Ht. fields in Hcd. fields in Hdt.
      eexists _, _; split; [reflexivity|]. fields.
      rewrite Ht, Hcd, Hdt, <- !app_assoc.
      split; [reflexivity|]. do 4 (split; [reflexivity|]).
      rewrite !count_app, !count_ll_enables by reflexivity.
      split; [lia|].
      unfold disconnect_result in *. fields in Hst.
      destruct (handshake_pending _); destruct Hst as [-> ->]; auto.
Qed.

(** C1. When [basen_i_close] starts a close: with [ll_err_occurred] set the
    state goes to ClosingLL and the LL's close is issued, without any
    [try_disconnect]; otherwise, with LL-bound bytes pending in the filter,
    the state becomes CloseWaitDrain and no LL close is issued; otherwise
    the state is set to ClosingFilter and [basen_try_close] runs from
    there, calling the filter's [try_disconnect] once (and moving on to
    ClosingLL, with the LL's close, unless that handshake is still
    pending). *)
Theorem basen_i_close_branches (cd : option fnptr) (data : Z) (w : world E) :
  exists w' evs,
    basen_i_close H cd data w = Ok tt w'
    /\ trace w' = trace w ++ evs
    /\ close_done (nd w') = cd
    /\ close_data (nd w') = data
    /\ if ll_err_occurred (nd w) then
         state (nd w') = BASEN_IN_LL_CLOSE
         /\ count is_ll_close evs = 1%nat
         /\ count is_try_disconnect evs = 0%nat
       else if has_ll_pending H w then
         state (nd w') = BASEN_CLOSE_WAIT_DRAIN
         /\ count is_ll_close evs = 0%nat
         /\ count is_try_disconnect evs = 0%nat
       else
         state (nd (about_to_disconnect cd data w)) = BASEN_IN_FILTER_CLOSE
         /\ basen_i_close H cd data w
            = (basen_try_close H ;; basen_set_ll_enables H)
                (about_to_disconnect cd data w)
         /\ count is_try_disconnect evs
            = (if filter H is Some _ then 1 else 0)%nat
         /\ if handshake_pending (disconnect_result H w)
            then state (nd w') = BASEN_IN_FILTER_CLOSE
                 /\ count is_ll_close evs = 0%nat
            else state (nd w') = BASEN_IN_LL_CLOSE
                 /\ count is_ll_close evs = 1%nat.
Proof. exact (basen_i_close_effect cd data w). Qed.

End Direct.

Section UserCalls.

Context {E : Type}.
Variable H : host E.

(** C7. A write while the state is not Open returns [EBADF], stores no
    count, hands nothing to the filter's [ul_write] or to the LL's [write],
    and changes no field: besides taking and releasing the lock it only
    runs the enable arbiter. *)
Theorem basen_write_when_not_open (buf : list byte) (w : world E) :
  (state (nd w) =s? BASEN_OPEN) = false ->
  exists evs,
    basen_write H buf w = Ok (EBADF, None) (logged evs w)
    /\ evs = EvLock :: ll_enables H w ++ [EvUnlock]
    /\ count is_payload_write evs = 0%nat.
Proof.
  intros Hs. destruct w as [d e t]. fields in Hs.
  unfold basen_write. mred. rewrite Hs. cbn [negb]. mred.
  rewrite basen_set_ll_enables_eq. unfold logged. fields.
  rewrite (ll_enables_trace H d e _ t).
  eexists. split; [rewrite <- !app_assoc; reflexivity|].
  split; [reflexivity|].
  rewrite !count_app, count_ll_enables by reflexivity.
  reflexivity.
Qed.

(** C5. With a nonzero [saved_xmit_err] and the state Open, a write returns
    that error, hands nothing to the filter or the LL, and clears
    [saved_xmit_err]; a second write then takes the normal path and returns
    what the filter's [ul_write] (or, without a filter, the LL's [write])
    returns for its bytes. *)
Theorem saved_xmit_err_delivered_once (buf buf2 : list byte) (w : world E) :
  state (nd w) = BASEN_OPEN ->
  saved_xmit_err (nd w) <> 0 ->
  exists evs w1,
    basen_write H buf w = Ok (saved_xmit_err (nd w), None) w1
    /\ nd w1 = set_saved_xmit_err 0 (nd w)
    /\ env w1 = env w
    /\ trace w1 = trace w ++ evs
    /\ count is_payload_write evs = 0%nat
    /\ basen_write H buf2 w1
       = (basen_lock ;;
          r <- filter_ul_write H (basen_write_data_handler H) (Some buf2) ;;
          basen_set_ll_enables H ;;
          basen_unlock ;;
          ret (fst r, Some (snd r))) w1.
Proof.
  intros Hs Herr. destruct w as [d e t]. fields in Hs. fields in Herr.
  unfold basen_write at 1. mred. rewrite Hs. cbn [basen_state_eqb negb].
  apply Z.eqb_neq in Herr. rewrite Herr. cbn [negb]. mred.
  rewrite basen_set_ll_enables_eq. unfold logged. fields.
  eexists _, _. split; [reflexivity|]. fields.
  split; [reflexivity|]. split; [reflexivity|].
  split; [rewrite <- !app_assoc; reflexivity|].
  split.
  - rewrite !count_app, count_ll_enables by reflexivity.
    reflexivity.
  - unfold basen_write. mred. rewrite Hs. cbn [basen_state_eqb negb Z.eqb].
    mred.
    destruct (filter_ul_write H (basen_write_data_handler H) (Some buf2) _)
      as [[err n] w'|f w']; [|reflexivity].
    fields. destruct (basen_set_ll_enables H w'); reflexivity.
Qed.

(** C10. While the state is Closed, ClosingFilter or ClosingLL, the user's
    two enable toggles take and release the lock and do nothing else: no
    field changes and no other call is made. *)
Theorem enable_toggles_ignored_when_closed (enabled : bool) (w : world E) :
  (state (nd w) =s? BASEN_CLOSED)
  || (state (nd w) =s? BASEN_IN_FILTER_CLOSE)
  || (state (nd w) =s? BASEN_IN_LL_CLOSE) = true ->
  basen_set_read_callback_enable H enabled w
  = Ok tt (logged [EvLock; EvUnlock] w)
  /\ basen_set_write_callback_enable H enabled w
     = Ok tt (logged [EvLock; EvUnlock] w).
Proof.
  intros Hs. destruct w as [d e t]. fields in Hs.
  unfold basen_set_read_callback_enable, basen_set_write_callback_enable.
  mred. rewrite Hs. mred. rewrite <- !app_assoc. split; reflexivity.
Qed.

(** How [basen_close] goes, by state. *)
Lemma basen_close_cases cd data (w : world E) :
  basen_close H cd data w
  = if state (nd w) =s? BASEN_OPEN then
      (basen_lock ;; basen_i_close H cd data ;; basen_unlock ;; ret 0) w
    else if is_opening (state (nd w)) then
      (basen_lock ;; basen_i_close H cd data ;; basen_deref ;;
       basen_unlock ;; ret 0) w
    else Ok EBUSY (logged [EvLock; EvUnlock] w).
Proof.
  destruct w as [d e t]. unfold basen_close, is_opening. mred.
  destruct (state d); cbn [basen_state_eqb negb orb]; mred;
    try (rewrite <- !app_assoc; reflexivity);
    match goal with
    | |- context [basen_i_close H cd data ?w] =>
        destruct (basen_i_close H cd data w); try reflexivity
    end.
  - unfold basen_deref. mred. destruct (1 <? refcount (nd w)); reflexivity.
  - unfold basen_deref. mred. destruct (1 <? refcount (nd w)); reflexivity.
Qed.

(** A close accepted while opening leaves a closing state. *)
Lemma basen_close_while_opening cd data (w w1 : world E) r :
  is_opening (state (nd w)) = true ->
  basen_close H cd data w = Ok r w1 ->
  r = 0
  /\ (state (nd w1) = BASEN_IN_LL_CLOSE
      \/ state (nd w1) = BASEN_CLOSE_WAIT_DRAIN
      \/ state (nd w1) = BASEN_IN_FILTER_CLOSE).
Proof.
  intros Hop. rewrite basen_close_cases.
  assert (Hno : (state (nd w) =s? BASEN_OPEN) = false).
  { unfold is_opening in Hop. destruct (state (nd w)); cbn in *; congruence. }
  rewrite Hno, Hop.
  destruct w as [d e t]. mred.
  match goal with
  | |- context [basen_i_close H cd data ?w] =>
      destruct (basen_i_close_effect H cd data w)
        as (w' & evs & -> & _ & _ & _ & Hst)
  end.
  unfold basen_deref. mred.
  destruct (1 <? refcount (nd w')); [|discriminate].
  intros Heq. injection Heq as <- <-. fields. split; [reflexivity|].
  destruct (ll_err_occurred _); [tauto|].
  destruct (has_ll_pending _ _); [tauto|].
  destruct Hst as (_ & _ & _ & Hst).
  destruct (handshake_pending _); tauto.
Qed.

End UserCalls.

(** ** Safety: rules for running the code step by step *)

Section SafetyRules.
Context {E : Type}.
Variable ok : basen_data -> Prop.
Variable P : event -> bool.

#[local] Abbreviation G := (safe_from ok P).

Lemma extends_refl (w : world E) : extends P w w.
Proof. exists []. rewrite app_nil_r. auto. Qed.

Lemma extends_emit (w0 w : world E) e :
  P e = false -> extends P w0 w ->
  extends P w0 (mk_world (nd w) (env w) (trace w ++ [e])).
Proof.
  intros He (evs & Ht & Hc). exists (evs ++ [e]). cbn. rewrite Ht, app_assoc.
  split; [reflexivity|]. rewrite count_app, Hc. unfold count. cbn. now rewrite He.
Qed.

Lemma sf_ret {A} (a : A) w0 (w : world E) : G w0 (ret a) w.
Proof. intros Hok Hx. cbn. auto. Qed.

Lemma sf_stop {A} f w0 (w : world E) : G w0 (@stop E A f) w.
Proof. intros Hok Hx. cbn. auto. Qed.

Lemma sf_absurd {A} (m : M E A) w0 w : (ok (nd w) -> False) -> G w0 m w.
Proof. intros Hn Hok. destruct (Hn Hok). Qed.

Lemma sf_bind_ret {A B} (a : A) (k : A -> M E B) w0 w :
  G w0 (k a) w -> G w0 (bind (ret a) k) w.
Proof. auto. Qed.

Lemma sf_bind_stop {A B} f (k : A -> M E B) w0 w :
  G w0 (bind (stop f) k) w.
Proof. intros Hok Hx. cbn. auto. Qed.

Lemma sf_get {B} (k : basen_data -> M E B) w0 w :
  G w0 (k (nd w)) w -> G w0 (bind get k) w.
Proof. auto. Qed.

Lemma sf_modify {B} f (k : unit -> M E B) w0 w :
  (ok (nd w) -> ok (f (nd w))) ->
  G w0 (k tt) (mk_world (f (nd w)) (env w) (trace w)) ->
  G w0 (bind (modify f) k) w.
Proof.
  intros Hf Hk Hok Hx. apply Hk; cbn; auto.
Qed.

Lemma sf_emit {B} e (k : unit -> M E B) w0 w :
  P e = false ->
  G w0 (k tt) (mk_world (nd w) (env w) (trace w ++ [e])) ->
  G w0 (bind (emit e) k) w.
Proof.
  intros He Hk Hok Hx. apply Hk; cbn; auto using extends_emit.
Qed.

Lemma sf_call {A B} e (f : E -> A * E) (k : A -> M E B) w0 w :
  P e = false ->
  (forall a e', G w0 (k a) (mk_world (nd w) e' (trace w ++ [e]))) ->
  G w0 (bind (call e f) k) w.
Proof.
  intros He Hk Hok Hx. unfold bind, call. destruct (f (env w)) as [a e'].
  apply Hk; cbn; auto. now apply (extends_emit w0 w).
Qed.

Lemma sf_query {A B} (f : E -> A) (k : A -> M E B) w0 w :
  G w0 (k (f (env w))) w -> G w0 (bind (query f) k) w.
Proof. auto. Qed.

Lemma sf_assert {B} b (k : unit -> M E B) w0 w :
  (b = true -> G w0 (k tt) w) -> G w0 (bind (assert b) k) w.
Proof.
  destruct b; intros Hk; [now apply Hk|]. intros Hok Hx. cbn. auto.
Qed.

Lemma sf_assoc {A B C} (m : M E A) (k1 : A -> M E B) (k2 : B -> M E C) w0 w :
  G w0 (bind m (fun a => bind (k1 a) k2)) w -> G w0 (bind (bind m k1) k2) w.
Proof.
  unfold safe_from, bind. destruct (m w); auto.
Qed.

Lemma sf_safe {A B} (m : M E A) (k : A -> M E B) w0 w :
  safe ok P m -> (forall a w', G w0 (k a) w') -> G w0 (bind m k) w.
Proof.
  intros Hm Hk Hok Hx. specialize (Hm w0 w Hok Hx). unfold bind.
  destruct (m w) as [a w'|f w']; cbn in *; [|exact Hm].
  destruct Hm. now apply Hk.
Qed.

Lemma sf_end {A} (m : M E A) w0 w : G w0 (bind m ret) w -> G w0 m w.
Proof.
  unfold safe_from, bind, ret. destruct (m w); auto.
Qed.

Lemma safe_run_fprog (handler : buffer -> M E (Z * Z)) :
  (forall buf, safe ok P (handler buf)) ->
  forall p w0 w, G w0 (run_fprog handler p) w.
Proof.
  intros Hh p. induction p as [err n e|e buf k IH]; intros w0 w Hok Hx.
  - cbn. auto.
  - cbn [run_fprog].
    pose proof (Hh buf w0 (mk_world (nd w) e (trace w)) Hok Hx) as Hm.
    destruct (handler buf _) as [[herr hcount] w'|f w']; cbn in Hm |- *.
    + destruct Hm. now apply IH.
    + exact Hm.
Qed.

End SafetyRules.


Ltac sf_head m :=
  lazymatch m with
  | ?f _ _ _ _ _ => unfold f
  | ?f _ _ _ _ => unfold f
  | ?f _ _ _ => unfold f
  | ?f _ _ => unfold f
  | ?f _ => unfold f
  | ?f => unfold f
  end.

(** One step through the code; [side] proves that a field update
    keeps the invariant, [ev] that a logged call is not of the kind
    excluded, [slv] that a called function is safe. *)
Ltac sf_step side ev slv :=
  lazymatch goal with
  | |- safe_from _ _ _ (bind (bind _ _) _) _ => apply sf_assoc
  | |- safe_from _ _ _ (bind (ret _) _) _ => apply sf_bind_ret
  | |- safe_from _ _ _ (bind (stop _) _) _ => apply sf_bind_stop
  | |- safe_from _ _ _ (bind get _) _ => apply sf_get; fields
  | |- safe_from _ _ _ (bind (modify _) _) _ =>
      apply sf_modify; [fields; solve [side] | fields]
  | |- safe_from _ _ _ (bind (emit _) _) _ =>
      apply sf_emit; [solve [ev] | fields]
  | |- safe_from _ _ _ (bind (call _ _) _) _ =>
      apply sf_call; [solve [ev] | intros ? ?; fields]
  | |- safe_from _ _ _ (bind (query _) _) _ => apply sf_query
  | |- safe_from _ _ _ (bind (assert _) _) _ =>
      apply sf_assert; intros ?
  | |- safe_from _ _ _ (bind (if ?b then _ else _) _) _ => destruct b eqn:?
  | |- safe_from _ _ _ (bind (match ?x with _ => _ end) _) _ =>
      destruct x eqn:?
  | |- safe_from _ _ _ (bind ?m _) _ =>
      first [ apply sf_safe; [solve [slv] | intros ? ?]
            | sf_head m ]
  | |- safe_from _ _ _ (ret _) _ => apply sf_ret
  | |- safe_from _ _ _ (stop _) _ => apply sf_stop
  | |- safe_from _ _ _ _ _ => apply sf_end
  end.

Create HintDb safe_db.

Section SafeCode.
Context {E : Type}.
Variable H : host E.
Variable okS : basen_state -> Prop.
Variable P : event -> bool.
Variable allow : user_op -> bool.

#[local] Abbreviation ok := (fun d : basen_data => okS (state d)).
#[local] Abbreviation S m := (safe (E:=E) ok P m).

Hypothesis ok_closed : okS BASEN_CLOSED.
Hypothesis ok_wait_drain : okS BASEN_CLOSE_WAIT_DRAIN.
Hypothesis ok_filter_close : okS BASEN_IN_FILTER_CLOSE.
Hypothesis ok_ll_close : okS BASEN_IN_LL_CLOSE.
Hypothesis ok_open : okS BASEN_OPEN.
Hypothesis ok_reopen :
  forall od data, allow (UOpen od data) = true ->
  okS BASEN_IN_LL_OPEN /\ okS BASEN_IN_FILTER_OPEN.
Hypothesis P_plain : forall e, is_user_callback e = false -> P e = false.
Hypothesis P_read : forall err buf, P (EvReadCallback err buf) = false.
Hypothesis P_write : P EvWriteCallback = false.
Hypothesis P_urgent : P EvUrgentCallback = false.
Hypothesis P_open_done : forall fn err data, P (EvOpenDone fn err data) = false.
Hypothesis P_close_done : forall fn data, P (EvCloseDone fn data) = false.

Ltac side := cbv beta; intros; auto.
Ltac ev := apply P_plain; reflexivity.
Ltac go := intros w0 w; repeat sf_step side ev ltac:(eauto with safe_db).

Lemma s_basen_ref : S basen_ref.
Proof using. go. Qed.
Hint Resolve s_basen_ref : safe_db.

Lemma s_basen_deref : S basen_deref.
Proof using. go. Qed.

Lemma s_basen_finish_free : S basen_finish_free.
Proof using P_plain. go. Qed.

Lemma s_basen_deref_and_unlock : S (basen_deref_and_unlock H).
Proof using P_plain. go. Qed.

Lemma s_sched : S basen_sched_deferred_op.
Proof using P_plain. go. Qed.
Hint Resolve s_basen_deref s_basen_finish_free s_basen_deref_and_unlock s_sched : safe_db.

Lemma s_ll_close done cd : S (ll_close H done cd).
Proof using P_plain. go. Qed.
Hint Resolve s_ll_close : safe_db.

Lemma s_set_ll_enables : S (basen_set_ll_enables H).
Proof using P_plain. go. Qed.
Hint Resolve s_set_ll_enables : safe_db.

Lemma s_try_close : S (basen_try_close H).
Proof using P_plain ok_ll_close. go. Qed.
Hint Resolve s_try_close : safe_db.

Lemma s_i_close a b : S (basen_i_close H a b).
Proof using P_plain ok_ll_close ok_wait_drain ok_filter_close. go. Qed.
Hint Resolve s_i_close : safe_db.

Lemma s_ll_write buf : S (ll_write H buf).
Proof using P_plain. go. Qed.
Hint Resolve s_ll_write : safe_db.

Lemma s_filter_ul_write buf : S (filter_ul_write H (basen_write_data_handler H) buf).
Proof using P_plain.
  intros w0 w. unfold filter_ul_write.
  destruct (filter H) as [f|].
  - apply sf_emit; [ev|]. intros Hok Hx.
    refine (safe_run_fprog ok P _ _ _ _ _ Hok Hx).
    intro b. apply s_ll_write.
  - apply s_ll_write.
Qed.
Hint Resolve s_filter_ul_write : safe_db.

Lemma s_basen_write buf : S (basen_write H buf).
Proof using P_plain. go. Qed.

Lemma s_basen_close a b : S (basen_close H a b).
Proof using P_plain ok_ll_close ok_wait_drain ok_filter_close. go. Qed.

Lemma s_basen_free : S (basen_free H).
Proof using P_plain ok_ll_close ok_wait_drain ok_filter_close. go. Qed.

Lemma s_basen_do_ref : S basen_do_ref.
Proof using P_plain. go. Qed.

Lemma s_set_read b : S (basen_set_read_callback_enable H b).
Proof using P_plain. go. Qed.

Lemma s_set_write b : S (basen_set_write_callback_enable H b).
Proof using P_plain. go. Qed.

Lemma s_basen_open a b :
  okS BASEN_IN_LL_OPEN -> okS BASEN_IN_FILTER_OPEN -> S (basen_open H a b).
Proof using P_plain. intros ? ?. go. Qed.

Hint Resolve s_basen_write s_basen_close s_basen_free s_basen_do_ref
  s_set_read s_set_write : safe_db.

Hypothesis scripts : scripts_allow allow H.

Lemma s_run_user_op op : allow op = true -> S (run_user_op H op).
Proof using P_plain ok_ll_close ok_wait_drain ok_filter_close ok_reopen.
  destruct op; intros Ha; try solve [go].
  destruct (ok_reopen _ _ Ha).
  intros w0 w. unfold run_user_op. apply sf_safe; [now apply s_basen_open|].
  intros; apply sf_ret.
Qed.

Lemma s_run_user_ops ops : forallb allow ops = true -> S (run_user_ops H ops).
Proof using P_plain ok_ll_close ok_wait_drain ok_filter_close ok_reopen.
  induction ops as [|op ops IH]; cbn [forallb run_user_ops]; intros Ha.
  - intros w0 w. apply sf_ret.
  - apply andb_prop in Ha. destruct Ha as [Ha Hr]. intros w0 w.
    apply sf_safe; [now apply s_run_user_op|]. intros _ w'. now apply IH.
Qed.

Lemma s_user_call {A} e (f : E -> (A * list user_op) * E) :
  P e = false -> (forall x, forallb allow (script_of (f x)) = true) ->
  S (user_call H e f).
Proof using P_plain ok_ll_close ok_wait_drain ok_filter_close ok_reopen.
  intros He Hf w0 w Hok Hx. specialize (Hf (env w)).
  unfold user_call, bind, call, script_of in *.
  destruct (f (env w)) as [[a ops] e']. cbn [fst snd] in Hf.
  pose proof (s_run_user_ops ops Hf w0
                (mk_world (nd w) e' (trace w ++ [e])) Hok
                (extends_emit P w0 w e He Hx)) as Hr.
  destruct (run_user_ops H ops _); exact Hr.
Qed.

Lemma s_user_read c err buf :
  cbs H = Some c ->
  S (user_call H (EvReadCallback err buf) (read_callback c err buf)).
Proof using P_plain P_read ok_ll_close ok_wait_drain ok_filter_close ok_reopen
  scripts.
  intros Hc. apply s_user_call; [apply P_read|].
  intro x. apply (proj1 (proj1 scripts c Hc)).
Qed.

Lemma s_user_write c :
  cbs H = Some c -> S (user_call H EvWriteCallback (write_callback c)).
Proof using P_plain P_write ok_ll_close ok_wait_drain ok_filter_close
  ok_reopen scripts.
  intros Hc. apply s_user_call; [apply P_write|].
  intro x. apply (proj1 (proj2 (proj1 scripts c Hc))).
Qed.

Lemma s_user_urgent c u :
  cbs H = Some c -> urgent_callback c = Some u ->
  S (user_call H EvUrgentCallback u).
Proof using P_plain P_urgent ok_ll_close ok_wait_drain ok_filter_close
  ok_reopen scripts.
  intros Hc Hu. apply s_user_call; [apply P_urgent|].
  intro x. apply (proj2 (proj2 (proj1 scripts c Hc)) u Hu).
Qed.

Lemma s_user_close_done fn data :
  S (user_call H (EvCloseDone fn data) (close_done_fn H fn data)).
Proof using P_plain P_close_done ok_ll_close ok_wait_drain ok_filter_close
  ok_reopen scripts.
  apply s_user_call; [apply P_close_done|]. intro x. apply scripts.
Qed.

Lemma s_user_open_done fn err data :
  S (user_call H (EvOpenDone fn err data) (open_done_fn H fn err data)).
Proof using P_plain P_open_done ok_ll_close ok_wait_drain ok_filter_close
  ok_reopen scripts.
  apply s_user_call; [apply P_open_done|]. intro x. apply scripts.
Qed.

Hint Resolve s_user_read s_user_write s_user_urgent s_user_close_done
  s_user_open_done : safe_db.

Lemma s_basen_read_data_handler buf : S (basen_read_data_handler H buf).
Proof using P_plain P_read ok_ll_close ok_wait_drain ok_filter_close ok_reopen
  scripts.
  go.
Qed.
Hint Resolve s_basen_read_data_handler : safe_db.

Lemma s_filter_ll_write rc buf :
  S (filter_ll_write H (basen_read_data_handler H) rc buf).
Proof using P_plain P_read ok_ll_close ok_wait_drain ok_filter_close ok_reopen
  scripts.
  intros w0 w. unfold filter_ll_write.
  destruct (filter H) as [f|].
  - apply sf_emit; [ev|]. intros Hok Hx.
    refine (safe_run_fprog ok P _ _ _ _ _ Hok Hx).
    intro b. apply s_basen_read_data_handler.
  - repeat sf_step side ev ltac:(eauto with safe_db).
Qed.
Hint Resolve s_filter_ll_write : safe_db.

Lemma s_filter_cleanup : S (filter_cleanup H).
Proof using P_plain. go. Qed.
Hint Resolve s_filter_cleanup : safe_db.

Lemma s_basen_finish_close : S (basen_finish_close H).
Proof using P_plain P_close_done ok_closed ok_ll_close ok_wait_drain
  ok_filter_close ok_reopen scripts.
  go.
Qed.
Hint Resolve s_basen_finish_close : safe_db.

Lemma s_basen_ll_close_done data : S (basen_ll_close_done H data).
Proof using P_plain P_close_done ok_closed ok_ll_close ok_wait_drain
  ok_filter_close ok_reopen scripts.
  go.
Qed.

Lemma s_basen_finish_open err : S (basen_finish_open H err).
Proof using P_plain P_open_done ok_closed ok_open ok_ll_close ok_wait_drain
  ok_filter_close ok_reopen scripts.
  go.
Qed.
Hint Resolve s_basen_finish_open : safe_db.

Lemma s_basen_try_connect : S (basen_try_connect H).
Proof using P_plain P_open_done ok_closed ok_open ok_ll_close ok_wait_drain
  ok_filter_close ok_reopen scripts.
  go.
Qed.

Lemma s_basen_ll_close_on_err data : S (basen_ll_close_on_err H data).
Proof using P_plain P_open_done ok_closed ok_open ok_ll_close ok_wait_drain
  ok_filter_close ok_reopen scripts.
  go.
Qed.

Section Callbacks.

(** However [basen_try_connect] is known to be safe. *)
Hypothesis try_connect_safe : S (basen_try_connect H).
Hint Resolve try_connect_safe : safe_db.

Lemma s_basen_deferred_op_retry fuel : S (basen_deferred_op_retry H fuel).
Proof using P_plain P_read P_close_done ok_closed ok_ll_close ok_wait_drain
  ok_filter_close ok_reopen scripts try_connect_safe.
  induction fuel as [|fuel IH]; intros w0 w; cbn [basen_deferred_op_retry].
  - apply sf_stop.
  - repeat sf_step side ev ltac:(eauto with safe_db).
Qed.
Hint Resolve s_basen_deferred_op_retry : safe_db.

Lemma s_basen_deferred_op fuel : S (basen_deferred_op H fuel).
Proof using P_plain P_read P_close_done ok_closed ok_ll_close ok_wait_drain
  ok_filter_close ok_reopen scripts try_connect_safe.
  go.
Qed.

Lemma s_basen_timeout : S (basen_timeout H).
Proof using P_plain ok_ll_close try_connect_safe.
  go.
Qed.

Lemma s_basen_ll_read err buf : S (basen_ll_read H err buf).
Proof using P_plain P_read ok_ll_close ok_wait_drain ok_filter_close ok_reopen
  scripts try_connect_safe.
  go.
Qed.

Lemma s_basen_ll_write_ready_flush : S (basen_ll_write_ready_flush H).
Proof using P_plain ok_ll_close ok_filter_close try_connect_safe.
  go.
Qed.
Hint Resolve s_basen_ll_write_ready_flush : safe_db.

Lemma s_basen_ll_write_ready_notify : S (basen_ll_write_ready_notify H).
Proof using P_plain P_write ok_ll_close ok_wait_drain ok_filter_close
  ok_reopen scripts.
  go.
Qed.
Hint Resolve s_basen_ll_write_ready_notify : safe_db.

Lemma s_basen_ll_write_ready : S (basen_ll_write_ready H).
Proof using P_plain P_write ok_ll_close ok_wait_drain ok_filter_close
  ok_reopen scripts try_connect_safe.
  go.
Qed.

Lemma s_basen_ll_urgent : S (basen_ll_urgent H).
Proof using P_plain P_urgent ok_ll_close ok_wait_drain ok_filter_close
  ok_reopen scripts.
  go.
Qed.

Lemma s_basen_start_timer tv : S (basen_start_timer tv).
Proof using P_plain. go. Qed.

Lemma s_basen_output_ready : S basen_output_ready.
Proof using P_plain. go. Qed.

Hypothesis allow_not_open : forall op, is_UOpen op = false -> allow op = true.

Lemma s_deliver i : close_side i = true -> S (deliver H i).
Proof using P_plain P_read P_write P_urgent P_close_done ok_closed
  ok_ll_close ok_wait_drain ok_filter_close ok_reopen scripts
  try_connect_safe allow_not_open.
  destruct i as [op| | | | |done data| | | | |]; cbn [close_side deliver]; intros Hi;
    try discriminate.
  - apply s_run_user_op. apply allow_not_open.
    now destruct (is_UOpen op).
  - intros w0 w. apply sf_safe; [apply s_basen_ll_read|].
    intros; apply sf_ret.
  - apply s_basen_ll_write_ready.
  - apply s_basen_ll_urgent.
  - destruct done; [apply s_basen_ll_close_done|discriminate].
  - apply s_basen_deferred_op.
  - apply s_basen_timeout.
  - apply s_basen_finish_free.
  - apply s_basen_output_ready.
  - apply s_basen_start_timer.
Qed.

Lemma s_deliver_all l : forallb close_side l = true -> S (deliver_all H l).
Proof using P_plain P_read P_write P_urgent P_close_done ok_closed
  ok_ll_close ok_wait_drain ok_filter_close ok_reopen scripts
  try_connect_safe allow_not_open.
  induction l as [|i l IH]; cbn [forallb deliver_all]; intros Hl.
  - intros w0 w. apply sf_ret.
  - apply andb_prop in Hl. destruct Hl as [Hi Hl]. intros w0 w.
    apply sf_safe; [now apply s_deliver|]. intros _ w'. now apply IH.
Qed.

End Callbacks.

End SafeCode.

(** ** Three uses of the safety rules *)

Lemma extends_count {E : Type} P (w0 w : world E) :
  extends P w0 w -> count P (trace w) = count P (trace w0).
Proof.
  intros (evs & -> & Hc). rewrite count_app, Hc. lia.
Qed.

Lemma scripts_allow_all {E : Type} (H : host E) :
  scripts_allow (fun _ => true) H.
Proof.
  assert (Hall : forall l : list user_op, forallb (fun _ => true) l = true)
    by (induction l; auto).
  repeat split; intros; apply Hall.
Qed.

Section Quiet.

Context {E : Type}.
Variable H : host E.

(** The operations the user calls never call the user back before they
    return. *)
Lemma run_user_ops_quiet (P : event -> bool) ops (w : world E) :
  (forall e, is_user_callback e = false -> P e = false) ->
  count P (trace (final (run_user_ops H ops w))) = count P (trace w).
Proof.
  intros HP. apply extends_count.
  refine (proj2 (s_run_user_ops H (fun _ => True) P
                   (fun _ => true) I I I _ HP ops _ w w I
                   (extends_refl _ w))).
  - intros; split; exact I.
  - clear. induction ops; auto.
Qed.

Lemma write_callback_is_user e :
  is_user_callback e = false -> is_write_callback e = false.
Proof. destruct e; cbn; congruence. Qed.

Lemma read_callback_is_user e :
  is_user_callback e = false -> is_read_callback e = false.
Proof. destruct e; cbn; congruence. Qed.

Lemma open_done_is_user e :
  is_user_callback e = false -> is_open_done e = false.
Proof. destruct e; cbn; congruence. Qed.

(** The flushing part of the write-ready callback does not invoke the write
    callback: its only call to the user is [open_done]. *)
Lemma basen_ll_write_ready_flush_quiet (w : world E) :
  count is_write_callback (trace (final (basen_ll_write_ready_flush H w)))
  = count is_write_callback (trace w).
Proof.
  apply extends_count.
  refine (proj2 (s_basen_ll_write_ready_flush H (fun _ => True)
                   is_write_callback I I write_callback_is_user _ w w I
                   (extends_refl _ w))).
  apply (s_basen_try_connect H (fun _ => True) is_write_callback
           (fun _ => true));
    auto using scripts_allow_all, write_callback_is_user.
Qed.

(** While the state is not OpeningFilter, [basen_try_connect] stops at its
    assertion. *)
Lemma basen_try_connect_blocked (P : event -> bool) :
  safe (E:=E) (fun d => state d <> BASEN_IN_FILTER_OPEN) P
    (basen_try_connect H).
Proof.
  intros w0 w Hok Hx. unfold basen_try_connect, bind, get, assert.
  destruct (state (nd w) =s? BASEN_IN_FILTER_OPEN) eqn:Hs.
  - apply basen_state_eqb_eq in Hs. contradiction.
  - cbn. auto.
Qed.

(** From a state other than OpeningFilter, the inputs of the close path
    never lead to [open_done], provided no user callback opens the endpoint
    again. *)
Lemma close_path_never_opens l (w : world E) :
  scripts_allow not_open H ->
  forallb close_side l = true ->
  state (nd w) <> BASEN_IN_FILTER_OPEN ->
  count is_open_done (trace (final (deliver_all H l w)))
  = count is_open_done (trace w).
Proof.
  intros Hscr Hl Hst. apply extends_count.
  refine (proj2 (s_deliver_all H (fun s => s <> BASEN_IN_FILTER_OPEN)
                   is_open_done not_open _ _ _ _ _ open_done_is_user
                   _ _ _ _ Hscr (basen_try_connect_blocked _) _ l Hl w w Hst
                   (extends_refl _ w)));
    try discriminate; try reflexivity.
  unfold not_open. intros op ->. reflexivity.
Qed.

End Quiet.

(** ** The callbacks *)

Section Callbacks.

Context {E : Type}.
Variable H : host E.

(** C9. The read-data handler: if the state is not Open or [read_enabled]
    is false it reports 0 bytes consumed and calls nobody; otherwise it
    invokes the user's [read_callback] once, with error 0 and the buffer it
    was given, and when it returns it reports the count the callback
    returned.  (With no callbacks installed, the call goes through a NULL
    pointer.) *)
Theorem basen_read_data_handler_rule (buf : buffer) (w : world E) :
  if negb (state (nd w) =s? BASEN_OPEN) || negb (read_enabled (nd w)) then
    basen_read_data_handler H buf w = Ok (0, 0) w
  else
    match cbs H with
    | Some c =>
        let r := read_callback c 0 buf (env w) in
        basen_read_data_handler H buf w
        = (run_user_ops H (script_of r) ;; ret (0, fst (fst r)))
            (mk_world (nd w) (snd r) (trace w ++ [EvReadCallback 0 buf]))
        /\ count is_read_callback
             (trace (final (basen_read_data_handler H buf w)))
           = (count is_read_callback (trace w) + 1)%nat
        /\ forall r' w',
             basen_read_data_handler H buf w = Ok r' w' ->
             r' = (0, fst (fst r))
    | None => basen_read_data_handler H buf w = Stop NullDeref w
    end.
Proof.
  destruct w as [d e t]. unfold basen_read_data_handler. mred.
  destruct (negb (state d =s? BASEN_OPEN) || negb (read_enabled d));
    [reflexivity|].
  destruct (cbs H) as [c|]; [|reflexivity].
  unfold user_call, script_of. mred.
  destruct (read_callback c 0 buf e) as [[n ops] e']. fields.
  pose proof (run_user_ops_quiet H is_read_callback ops
                (mk_world d e' (t ++ [EvReadCallback 0 buf]))
                read_callback_is_user) as Hq.
  destruct (run_user_ops H ops _) as [u w2|f w2]; cbn [final] in *.
  - split; [reflexivity|]. split.
    + rewrite Hq. fields. rewrite count_app. reflexivity.
    + intros r' w' Heq. now injection Heq as <- _.
  - split; [reflexivity|]. split.
    + rewrite Hq. fields. rewrite count_app. reflexivity.
    + intros r' w' Heq. discriminate.
Qed.

Lemma basen_ll_write_ready_notify_effect (w1 : world E) :
  cbs H <> None ->
  count is_write_callback (trace (final (basen_ll_write_ready_notify H w1)))
  = (count is_write_callback (trace w1)
     + if write_callback_due H w1 then 1 else 0)%nat
  /\ forall w2,
       basen_ll_write_ready_notify H w1 = Ok tt w2 ->
       tmp_xmit_enabled (nd w2) = false.
Proof.
  intros Hcbs. destruct w1 as [d e t].
  unfold basen_ll_write_ready_notify, write_callback_due. mred.
  rewrite filter_ll_write_pending_eq. fields.
  destruct (negb (state d =s? BASEN_IN_FILTER_OPEN)
            && negb (has_ll_pending H (mk_world d e t)) && xmit_enabled d).
  - destruct (cbs H) as [c|]; [|congruence].
    unfold user_call. mred.
    destruct (write_callback c e) as [[a ops] e']. fields.
    pose proof (run_user_ops_quiet H is_write_callback ops
                  (mk_world d e' ((t ++ [EvUnlock]) ++ [EvWriteCallback]))
                  write_callback_is_user) as Hq.
    destruct (run_user_ops H ops _) as [u w2|f w2]; cbn [final] in Hq.
    + fields. rewrite basen_set_ll_enables_eq. unfold logged. fields.
      split.
      * rewrite !count_app, count_ll_enables, Hq by reflexivity.
        fields. rewrite !count_app. cbn. lia.
      * intros w3 Heq. injection Heq as <-. reflexivity.
    + cbn [final]. split; [|discriminate].
      rewrite Hq. fields. rewrite !count_app. cbn. lia.
  - rewrite basen_set_ll_enables_eq. unfold logged. fields. split.
    + rewrite !count_app, count_ll_enables by reflexivity. cbn. lia.
    + intros w3 Heq. injection Heq as <-. reflexivity.
Qed.

(** C8, as the code has it.  With user callbacks installed, the write-ready
    callback invokes the user's [write_callback] exactly when, after the
    flush and the handshake steps, the state is not OpeningFilter, the
    filter has no LL-bound bytes pending and [xmit_enabled] is set; and
    when it returns, [tmp_xmit_enabled] is false. *)
Theorem basen_ll_write_ready_rule (w : world E) :
  cbs H <> None ->
  count is_write_callback (trace (final (basen_ll_write_ready H w)))
  = (count is_write_callback (trace w)
     + match basen_ll_write_ready_flush H w with
       | Ok _ w1 => if write_callback_due H w1 then 1 else 0
       | Stop _ _ => 0
       end)%nat
  /\ forall w2,
       basen_ll_write_ready H w = Ok tt w2 ->
       tmp_xmit_enabled (nd w2) = false.
Proof.
  intros Hcbs.
  pose proof (basen_ll_write_ready_flush_quiet H w) as Hq.
  unfold basen_ll_write_ready, bind.
  destruct (basen_ll_write_ready_flush H w) as [u w1|f w1]; cbn [final] in *.
  - destruct (basen_ll_write_ready_notify_effect w1 Hcbs) as [Hc Ht].
    rewrite Hc, Hq. split; [reflexivity|exact Ht].
  - rewrite Hq. split; [lia|discriminate].
Qed.

(** C3, as the code has it.  A user close accepted while the state is
    OpeningLL or OpeningFilter does not invoke [open_done] and leaves it
    recorded, and nothing that follows on the close path invokes it: user
    calls other than a new open, LL read, write-ready and urgent callbacks,
    the completion [basen_ll_close_done] of an LL close, the deferred-op
    runner, the timer and the filter's callbacks, as long as user callbacks
    do not open the endpoint again.  The LL's open-done callback and the
    completion [basen_ll_close_on_err] of an LL close are not on the close
    path. *)
Theorem close_supersedes_open_done_on_close_path
  (cd : option fnptr) (data : Z) (w w1 : world E) (l : list input) :
  scripts_allow not_open H ->
  is_opening (state (nd w)) = true ->
  basen_close H cd data w = Ok 0 w1 ->
  forallb close_side l = true ->
  count is_open_done (trace w1) = count is_open_done (trace w)
  /\ open_done (nd w1) = open_done (nd w)
  /\ count is_open_done (trace (final (deliver_all H l w1)))
     = count is_open_done (trace w1).
Proof.
  intros Hscr Hop Hclose Hl.
  destruct (basen_close_while_opening H cd data w w1 0 Hop Hclose)
    as [_ Hst].
  split; [|split].
  - assert (Hs : safe (E:=E) (fun _ => True) is_open_done
                   (basen_close H cd data))
      by (apply (s_basen_close H (fun _ => True) is_open_done);
          auto using open_done_is_user).
    specialize (Hs w w I (extends_refl _ w)). rewrite Hclose in Hs.
    now apply extends_count.
  - assert (Hs : safe (E:=E) (fun d => open_done d = open_done (nd w))
                   (fun _ => false) (basen_close H cd data)).
    { intros w0 w'. repeat sf_step ltac:(cbv beta; intros; auto)
        ltac:(reflexivity) ltac:(fail). }
    specialize (Hs w w eq_refl (extends_refl _ w)). rewrite Hclose in Hs.
    apply Hs.
  - apply close_path_never_opens; auto.
    destruct Hst as [Hs|[Hs|Hs]]; rewrite Hs; discriminate.
Qed.

End Callbacks.

(** ** Runs on the example worlds *)

(** C2.  An LL read error while opening moves the endpoint to ClosingLL and
    issues the LL's close with [basen_ll_close_on_err], meant to end in
    [open_done(ECOMM)]; but [ll_close] hands [ndata] to the LL instead of
    the error.  When the LL's close completes later, [open_done] gets the
    address of [ndata] as its error; when it completes at once, the
    deferred-op runner finishes the close and [open_done] is never
    called. *)
Theorem read_error_while_opening_loses_ECOMM :
  (exists w,
      deliver_all async_host
        [InLLRead ECONNRESET [];
         InLLCloseDone Basen_ll_close_on_err (this async_host)]
        opening_filter = Ok tt w
      /\ In (EvLLClose Basen_ll_close_on_err (this async_host)) (trace w)
      /\ In (EvOpenDone 7%nat (int_of_long (this async_host)) 0) (trace w)
      /\ count is_open_done (trace w) = 1%nat
      /\ int_of_long (this async_host) <> ECOMM)
  /\ (exists w,
         deliver_all plain_host [InLLRead ECONNRESET []; InDeferredOp 1]
           opening_filter = Ok tt w
         /\ state (nd w) = BASEN_CLOSED
         /\ ll_err_occurred (nd w) = true
         /\ count is_open_done (trace w) = 0%nat).
Proof.
  split; eexists; (split; [vm_compute; reflexivity|]); cbn.
  - repeat split; auto 20. discriminate.
  - repeat split.
Qed.

(** C6.  A server-side endpoint is born in OpeningFilter with one
    reference.  Closing it while the filter's disconnect handshake is in
    progress reaches [basen_deref] with [refcount = 1]: the assertion
    [refcount > 1] fails and the close does not return. *)
Theorem close_of_server_in_handshake_aborts :
  exists w,
    (genio_alloc server_host false (Some 7%nat) 0 ;;
     basen_close server_host (Some 9%nat) 0) (fresh zalloc)
    = Stop AssertFailed w
    /\ state (nd w) = BASEN_IN_FILTER_CLOSE
    /\ refcount (nd w) = 1.
Proof.
  eexists. split; [vm_compute; reflexivity|]. split; reflexivity.
Qed.

(** C3, as claimed, fails: after a close accepted in OpeningLL, the LL's
    open-done callback invokes [open_done]. *)
Lemma open_done_fires_after_close :
  ~ open_done_superseded async_host opening_ll.
Proof.
  intros Hc.
  assert (Hex : exists w1,
             basen_close async_host (Some 9%nat) 0 opening_ll = Ok 0 w1
             /\ count is_open_done
                  (trace (final (deliver_all async_host
                                   [InLLOpenDone ECONNRESET] w1)))
                <> count is_open_done (trace w1)).
  { eexists. split; [vm_compute; reflexivity|]. vm_compute. discriminate. }
  destruct Hex as (w1 & Hw1 & Hne).
  exact (Hne (Hc eq_refl _ _ w1 Hw1 _)).
Qed.


(** C8, as claimed, fails: in OpeningLL with [xmit_enabled] set and nothing
    pending, the write-ready callback invokes the user's
    [write_callback]. *)
Lemma write_callback_invoked_in_opening_ll :
  ~ write_ready_rule_as_claimed plain_host opening_ll_xmit.
Proof. vm_compute. discriminate. Qed.

Lemma plain_cbs_never_reopen flt ll :
  scripts_allow not_open (demo_host flt ll (Some plain_cbs)).
Proof.
  unfold scripts_allow. cbn.
  split; [|split; intros; reflexivity].
  intros c Hc. injection Hc as <-. cbn.
  repeat split; intros; try reflexivity. discriminate.
Qed.

Lemma close_supersedes_open_done_on_close_path_witness :
  count is_open_done (trace closed_while_opening)
  = count is_open_done (trace opening_ll)
  /\ open_done (nd closed_while_opening) = open_done (nd opening_ll)
  /\ count is_open_done
       (trace (final (deliver_all async_host
                        [InLLCloseDone Basen_ll_close_done 4096]
                        closed_while_opening)))
     = count is_open_done (trace closed_while_opening).
Proof.
  apply (close_supersedes_open_done_on_close_path async_host (Some 9%nat) 0
           opening_ll closed_while_opening
           [InLLCloseDone Basen_ll_close_done 4096]).
  - apply plain_cbs_never_reopen.
  - reflexivity.
  - vm_compute. reflexivity.
  - reflexivity.
Defined.

Lemma basen_write_when_not_open_witness :
  (state (nd opening_ll) =s? BASEN_OPEN) = false
  /\ exists evs,
       basen_write plain_host ["h"%byte] opening_ll
       = Ok (EBADF, None) (logged evs opening_ll)
       /\ evs = EvLock :: ll_enables plain_host opening_ll ++ [EvUnlock]
       /\ count is_payload_write evs = 0%nat.
Proof.
  split; [reflexivity|].
  apply (basen_write_when_not_open plain_host ["h"%byte] opening_ll).
  reflexivity.
Defined.

Lemma saved_xmit_err_delivered_once_witness :
  exists evs w1,
    basen_write plain_host ["h"%byte] open_with_saved_error
    = Ok (saved_xmit_err (nd open_with_saved_error), None) w1
    /\ nd w1 = set_saved_xmit_err 0 (nd open_with_saved_error)
    /\ env w1 = env open_with_saved_error
    /\ trace w1 = trace open_with_saved_error ++ evs
    /\ count is_payload_write evs = 0%nat
    /\ basen_write plain_host ["i"%byte] w1
       = (basen_lock ;;
          r <- filter_ul_write plain_host
                 (basen_write_data_handler plain_host) (Some ["i"%byte]) ;;
          basen_set_ll_enables plain_host ;;
          basen_unlock ;;
          ret (fst r, Some (snd r))) w1.
Proof.
  apply (saved_xmit_err_delivered_once plain_host ["h"%byte] ["i"%byte]
           open_with_saved_error).
  - reflexivity.
  - vm_compute. discriminate.
Defined.

Lemma enable_toggles_ignored_when_closed_witness :
  basen_set_read_callback_enable plain_host true
    (fresh (endpoint_in BASEN_IN_LL_CLOSE 1))
  = Ok tt (logged [EvLock; EvUnlock] (fresh (endpoint_in BASEN_IN_LL_CLOSE 1)))
  /\ basen_set_write_callback_enable plain_host true
       (fresh (endpoint_in BASEN_IN_LL_CLOSE 1))
     = Ok tt
         (logged [EvLock; EvUnlock] (fresh (endpoint_in BASEN_IN_LL_CLOSE 1))).
Proof.
  apply (enable_toggles_ignored_when_closed plain_host true
           (fresh (endpoint_in BASEN_IN_LL_CLOSE 1))).
  reflexivity.
Defined.

Lemma basen_ll_write_ready_rule_witness :
  count is_write_callback
    (trace (final (basen_ll_write_ready plain_host open_xmit)))
  = (count is_write_callback (trace open_xmit)
     + match basen_ll_write_ready_flush plain_host open_xmit with
       | Ok _ w1 => if write_callback_due plain_host w1 then 1 else 0
       | Stop _ _ => 0
       end)%nat
  /\ forall w2,
       basen_ll_write_ready plain_host open_xmit = Ok tt w2 ->
       tmp_xmit_enabled (nd w2) = false.
Proof.
  apply (basen_ll_write_ready_rule plain_host open_xmit).
  discriminate.
Defined.

(** * Further properties of the code *)

(** ** Lock discipline *)

Lemma lock_after_app b l1 l2 :
  lock_after b (l1 ++ l2)
  = match lock_after b l1 with
    | Some b' => lock_after b' l2
    | None => None
    end.
Proof.
  revert b. induction l1 as [|e l1 IH]; intros b; [reflexivity|].
  destruct e; cbn [app lock_after is_user_callback andb];
    try apply IH; destruct b; cbn; auto.
Qed.

Section LockRules.

Context {E : Type}.

Lemma locked_run_refl b (w : world E) : locked_run b w w b.
Proof. exists []. rewrite app_nil_r. auto. Qed.

Lemma locked_run_step b0 (w0 w : world E) b b' e :
  lock_after b [e] = Some b' ->
  locked_run b0 w0 w b ->
  locked_run b0 w0 (mk_world (nd w) (env w) (trace w ++ [e])) b'.
Proof.
  intros He (evs & Ht & Hl). exists (evs ++ [e]). cbn [trace].
  rewrite Ht, app_assoc. split; [reflexivity|].
  now rewrite lock_after_app, Hl.
Qed.

Lemma lk_ret {A} (a : A) b0 w0 b (w : world E) : lk_from b0 w0 b b (ret a) w.
Proof. intros Hr. exact Hr. Qed.

Lemma lk_stop {A} f b0 w0 b b' (w : world E) :
  lk_from b0 w0 b b' (@stop E A f) w.
Proof. intros Hr. cbn. eauto. Qed.

Lemma lk_bind_ret {A B} (a : A) (k : A -> M E B) b0 w0 b b' w :
  lk_from b0 w0 b b' (k a) w -> lk_from b0 w0 b b' (bind (ret a) k) w.
Proof. auto. Qed.

Lemma lk_bind_stop {A B} f (k : A -> M E B) b0 w0 b b' w :
  lk_from b0 w0 b b' (bind (stop f) k) w.
Proof. intros Hr. cbn. eauto. Qed.

Lemma lk_get {B} (k : basen_data -> M E B) b0 w0 b b' w :
  lk_from b0 w0 b b' (k (nd w)) w -> lk_from b0 w0 b b' (bind get k) w.
Proof. auto. Qed.

Lemma lk_modify {B} f (k : unit -> M E B) b0 w0 b b' w :
  lk_from b0 w0 b b' (k tt) (mk_world (f (nd w)) (env w) (trace w)) ->
  lk_from b0 w0 b b' (bind (modify f) k) w.
Proof. intros Hk Hr. apply Hk. exact Hr. Qed.

Lemma lk_emit {B} e (k : unit -> M E B) b0 w0 b b1 b' w :
  lock_after b [e] = Some b1 ->
  lk_from b0 w0 b1 b' (k tt) (mk_world (nd w) (env w) (trace w ++ [e])) ->
  lk_from b0 w0 b b' (bind (emit e) k) w.
Proof.
  intros He Hk Hr. apply Hk. now apply (locked_run_step b0 w0 w b).
Qed.

Lemma lk_call {A B} e (f : E -> A * E) (k : A -> M E B) b0 w0 b b1 b' w :
  lock_after b [e] = Some b1 ->
  (forall a e',
      lk_from b0 w0 b1 b' (k a) (mk_world (nd w) e' (trace w ++ [e]))) ->
  lk_from b0 w0 b b' (bind (call e f) k) w.
Proof.
  intros He Hk Hr. unfold bind, call. destruct (f (env w)) as [a e'].
  apply Hk. now apply (locked_run_step b0 w0 w b).
Qed.

Lemma lk_query {A B} (f : E -> A) (k : A -> M E B) b0 w0 b b' w :
  lk_from b0 w0 b b' (k (f (env w))) w ->
  lk_from b0 w0 b b' (bind (query f) k) w.
Proof. auto. Qed.

Lemma lk_assert {B} c (k : unit -> M E B) b0 w0 b b' w :
  (c = true -> lk_from b0 w0 b b' (k tt) w) ->
  lk_from b0 w0 b b' (bind (assert c) k) w.
Proof.
  destruct c; intros Hk; [now apply Hk|]. intros Hr. cbn. eauto.
Qed.

Lemma lk_assoc {A B C} (m : M E A) (k1 : A -> M E B) (k2 : B -> M E C)
  b0 w0 b b' w :
  lk_from b0 w0 b b' (bind m (fun a => bind (k1 a) k2)) w ->
  lk_from b0 w0 b b' (bind (bind m k1) k2) w.
Proof. unfold lk_from, bind. destruct (m w); auto. Qed.

Lemma lk_safe {A B} (m : M E A) (k : A -> M E B) b0 w0 b b1 b' w :
  lk b b1 m -> (forall a w', lk_from b0 w0 b1 b' (k a) w') ->
  lk_from b0 w0 b b' (bind m k) w.
Proof.
  intros Hm Hk Hr. specialize (Hm b0 w0 w Hr). unfold bind.
  destruct (m w) as [a w'|f w']; [now apply Hk|exact Hm].
Qed.

Lemma lk_end {A} (m : M E A) b0 w0 b b' w :
  lk_from b0 w0 b b' (bind m ret) w -> lk_from b0 w0 b b' m w.
Proof. unfold lk_from, bind, ret. destruct (m w); auto. Qed.

Lemma lk_run_fprog (handler : buffer -> M E (Z * Z)) b :
  (forall buf, lk b b (handler buf)) ->
  forall p b0 w0 w, lk_from b0 w0 b b (run_fprog handler p) w.
Proof.
  intros Hh p. induction p as [err n e|e buf k IH]; intros b0 w0 w Hr.
  - exact Hr.
  - cbn [run_fprog].
    pose proof (Hh buf b0 w0 (mk_world (nd w) e (trace w)) Hr) as Hm.
    destruct (handler buf _) as [[herr hcount] w'|f w'].
    + now apply IH.
    + exact Hm.
Qed.

End LockRules.

Ltac lk_step slv :=
  lazymatch goal with
  | |- lk_from _ _ _ _ (bind (bind _ _) _) _ => apply lk_assoc
  | |- lk_from _ _ _ _ (bind (ret _) _) _ => apply lk_bind_ret
  | |- lk_from _ _ _ _ (bind (stop _) _) _ => apply lk_bind_stop
  | |- lk_from _ _ _ _ (bind get _) _ => apply lk_get; fields
  | |- lk_from _ _ _ _ (bind (modify _) _) _ => apply lk_modify; fields
  | |- lk_from _ _ _ _ (bind basen_lock _) _ =>
      eapply lk_emit; [reflexivity | fields]
  | |- lk_from _ _ _ _ (bind basen_unlock _) _ =>
      eapply lk_emit; [reflexivity | fields]
  | |- lk_from _ _ _ _ (bind (emit _) _) _ =>
      eapply lk_emit; [reflexivity | fields]
  | |- lk_from _ _ _ _ (bind (call _ _) _) _ =>
      eapply lk_call; [reflexivity | intros ? ?; fields]
  | |- lk_from _ _ _ _ (bind (query _) _) _ => apply lk_query
  | |- lk_from _ _ _ _ (bind (assert _) _) _ => apply lk_assert; intros ?
  | |- lk_from _ _ _ _ (bind (if ?c then _ else _) _) _ => destruct c eqn:?
  | |- lk_from _ _ _ _ (bind (match ?x with _ => _ end) _) _ =>
      destruct x eqn:?
  | |- lk_from _ _ _ _ (bind ?m _) _ =>
      first [ eapply lk_safe; [solve [slv] | intros ? ?]
            | sf_head m ]
  | |- lk_from _ _ _ _ (ret _) _ => apply lk_ret
  | |- lk_from _ _ _ _ (stop _) _ => apply lk_stop
  | |- lk_from _ _ _ _ _ _ => apply lk_end
  end.

Create HintDb lk_db.

Section LockCode.

Context {E : Type}.
Variable H : host E.

Ltac go := intros b0 w0 w; repeat lk_step ltac:(eauto with lk_db).

Lemma l_basen_ref b : lk (E:=E) b b basen_ref.
Proof. go. Qed.
Lemma l_basen_deref b : lk (E:=E) b b basen_deref.
Proof. go. Qed.
Lemma l_basen_finish_free b : lk (E:=E) b b basen_finish_free.
Proof. destruct b; go. Qed.
Hint Resolve l_basen_ref l_basen_deref l_basen_finish_free : lk_db.
Lemma l_basen_deref_and_unlock : lk true false (basen_deref_and_unlock H).
Proof. go. Qed.
Lemma l_sched b : lk (E:=E) b b basen_sched_deferred_op.
Proof. destruct b; go. Qed.
Hint Resolve l_basen_deref_and_unlock l_sched : lk_db.
Lemma l_ll_close b done cd : lk b b (ll_close H done cd).
Proof. destruct b; go. Qed.
Hint Resolve l_ll_close : lk_db.
Lemma l_set_ll_enables b : lk b b (basen_set_ll_enables H).
Proof. destruct b; go. Qed.
Hint Resolve l_set_ll_enables : lk_db.
Lemma l_try_close b : lk b b (basen_try_close H).
Proof. destruct b; go. Qed.
Hint Resolve l_try_close : lk_db.
Lemma l_i_close b x y : lk b b (basen_i_close H x y).
Proof. destruct b; go. Qed.
Hint Resolve l_i_close : lk_db.
Lemma l_ll_write b buf : lk b b (ll_write H buf).
Proof. destruct b; go. Qed.
Hint Resolve l_ll_write : lk_db.

Lemma l_filter_ul_write b buf :
  lk b b (filter_ul_write H (basen_write_data_handler H) buf).
Proof.
  intros b0 w0 w. unfold filter_ul_write.
  destruct (filter H) as [f|].
  - eapply lk_emit; [destruct b; reflexivity|]. intros Hr.
    refine (lk_run_fprog _ b _ _ _ _ _ Hr).
    intro x. apply l_ll_write.
  - apply l_ll_write.
Qed.
Hint Resolve l_filter_ul_write : lk_db.

Lemma l_basen_write buf : lk false false (basen_write H buf).
Proof. go. Qed.
Lemma l_basen_close x y : lk false false (basen_close H x y).
Proof. go. Qed.
Lemma l_basen_free : lk false false (basen_free H).
Proof. go. Qed.
Lemma l_basen_do_ref : lk (E:=E) false false basen_do_ref.
Proof. go. Qed.
Lemma l_set_read x : lk false false (basen_set_read_callback_enable H x).
Proof. go. Qed.
Lemma l_set_write x : lk false false (basen_set_write_callback_enable H x).
Proof. go. Qed.
Lemma l_filter_cleanup b : lk b b (filter_cleanup H).
Proof. destruct b; go. Qed.
Hint Resolve l_filter_cleanup : lk_db.
Lemma l_basen_open x y : lk false false (basen_open H x y).
Proof. go. Qed.
Hint Resolve l_basen_write l_basen_close l_basen_free l_basen_do_ref
  l_set_read l_set_write l_basen_open : lk_db.

Lemma l_run_user_op op : lk false false (run_user_op H op).
Proof. destruct op; go. Qed.

Lemma l_run_user_ops ops : lk false false (run_user_ops H ops).
Proof.
  induction ops as [|op ops IH]; intros b0 w0 w; cbn [run_user_ops].
  - apply lk_ret.
  - eapply lk_safe; [apply l_run_user_op|]. intros _ w'. apply IH.
Qed.

Lemma l_user_call {A} e (f : E -> (A * list user_op) * E) :
  is_lock_event e = false -> lk false false (user_call H e f).
Proof.
  intros Hne b0 w0 w Hr. unfold user_call, bind, call.
  destruct (f (env w)) as [[a ops] e'].
  assert (He : lock_after false [e] = Some false)
    by (destruct e; try reflexivity; discriminate).
  match goal with
  | |- context [run_user_ops H ops ?x] =>
      pose proof (l_run_user_ops ops b0 w0 x
                    (locked_run_step b0 w0 w false false e He Hr)) as Hu;
      unfold lk_from in Hu; unfold ret;
      destruct (run_user_ops H ops x) as [u w1|f1 w1]; exact Hu
  end.
Qed.
Hint Resolve l_user_call : lk_db.

Lemma l_basen_read_data_handler buf :
  lk false false (basen_read_data_handler H buf).
Proof. go. Qed.
Hint Resolve l_basen_read_data_handler : lk_db.

Lemma l_filter_ll_write rc buf :
  lk false false (filter_ll_write H (basen_read_data_handler H) rc buf).
Proof.
  intros b0 w0 w. unfold filter_ll_write.
  destruct (filter H) as [f|].
  - eapply lk_emit; [reflexivity|]. intros Hr.
    refine (lk_run_fprog _ false _ _ _ _ _ Hr).
    intro x. apply l_basen_read_data_handler.
  - repeat lk_step ltac:(eauto with lk_db).
Qed.
Hint Resolve l_filter_ll_write : lk_db.

Lemma l_basen_finish_close : lk true true (basen_finish_close H).
Proof. go. Qed.
Lemma l_basen_finish_open err : lk true true (basen_finish_open H err).
Proof. go. Qed.
Hint Resolve l_basen_finish_close l_basen_finish_open : lk_db.
Lemma l_basen_try_connect : lk true true (basen_try_connect H).
Proof. go. Qed.
Hint Resolve l_basen_try_connect : lk_db.
Lemma l_basen_ll_close_done x : lk false false (basen_ll_close_done H x).
Proof. go. Qed.
Lemma l_basen_ll_close_on_err x : lk false false (basen_ll_close_on_err H x).
Proof. go. Qed.
Lemma l_basen_ll_open_done x : lk false false (basen_ll_open_done H x).
Proof. go. Qed.

Lemma l_basen_deferred_op_retry fuel :
  lk true true (basen_deferred_op_retry H fuel).
Proof.
  induction fuel as [|fuel IH]; intros b0 w0 w; cbn [basen_deferred_op_retry].
  - apply lk_stop.
  - repeat lk_step ltac:(eauto with lk_db).
Qed.
Hint Resolve l_basen_deferred_op_retry : lk_db.
Lemma l_basen_deferred_op fuel : lk false false (basen_deferred_op H fuel).
Proof. go. Qed.
Lemma l_basen_timeout : lk false false (basen_timeout H).
Proof. go. Qed.
Lemma l_basen_ll_read err buf : lk false false (basen_ll_read H err buf).
Proof. go. Qed.
Lemma l_basen_ll_write_ready : lk false false (basen_ll_write_ready H).
Proof. go. Qed.
Lemma l_basen_ll_urgent : lk false false (basen_ll_urgent H).
Proof. go. Qed.
Lemma l_basen_start_timer tv : lk (E:=E) false false (basen_start_timer tv).
Proof. go. Qed.
Lemma l_basen_output_ready : lk (E:=E) false false basen_output_ready.
Proof. go. Qed.

Lemma l_deliver i : lk false false (deliver H i).
Proof.
  destruct i as [op| | | | |done data| | | | |]; cbn [deliver].
  - apply l_run_user_op.
  - intros b0 w0 w. eapply lk_safe; [apply l_basen_ll_read|].
    intros; apply lk_ret.
  - apply l_basen_ll_write_ready.
  - apply l_basen_ll_urgent.
  - apply l_basen_ll_open_done.
  - destruct done; [apply l_basen_ll_close_done|apply l_basen_ll_close_on_err].
  - apply l_basen_deferred_op.
  - apply l_basen_timeout.
  - apply l_basen_finish_free.
  - apply l_basen_output_ready.
  - apply l_basen_start_timer.
Qed.

Lemma l_deliver_all l : lk false false (deliver_all H l).
Proof.
  induction l as [|i l IH]; intros b0 w0 w; cbn [deliver_all].
  - apply lk_ret.
  - eapply lk_safe; [apply l_deliver|]. intros _ w'. apply IH.
Qed.

(** X1.  Whatever the host, the LL, the filter and the user do, and
    whatever the surroundings are: the endpoint never takes its lock twice,
    never releases it when it does not hold it, never calls user code with
    the lock held, and returns from every entry point with the lock
    released. *)
Theorem lock_discipline (l : list input) (w : world E) :
  exists evs b,
    trace (final (deliver_all H l w)) = trace w ++ evs
    /\ lock_after false evs = Some b
    /\ forall w', deliver_all H l w = Ok tt w' -> b = false.
Proof.
  pose proof (l_deliver_all l false w w (locked_run_refl false w)) as Hl.
  destruct (deliver_all H l w) as [u w'|f w']; cbn [final].
  - destruct Hl as (evs & Ht & Hb). exists evs, false. auto.
  - destruct Hl as (b & evs & Ht & Hb). exists evs, b.
    repeat split; auto. discriminate.
Qed.

End LockCode.

(** Code that leaves the endpoint's fields alone keeps every invariant of
    them. *)
Section Frames.

Context {E : Type}.
Variable H : host E.
Variable ok : basen_data -> Prop.
Variable P : event -> bool.

Hypothesis P_enables : forall b,
  P (EvLLSetWriteEnable b) = false /\ P (EvLLSetReadEnable b) = false.
Hypothesis P_writes : forall buf,
  P (EvLLWrite buf) = false /\ P (EvFilterUlWrite buf) = false.

Lemma s_set_ll_enables_frame : safe (E:=E) ok P (basen_set_ll_enables H).
Proof using P_enables.
  intros w0 w Hok Hx. rewrite basen_set_ll_enables_eq. unfold logged.
  fields. split; [exact Hok|].
  destruct Hx as (evs & Ht & Hc). exists (evs ++ ll_enables H w).
  rewrite Ht, app_assoc. split; [reflexivity|].
  rewrite count_app, Hc, count_ll_enables; auto; apply P_enables.
Qed.

Lemma s_filter_ul_write_frame buf :
  safe (E:=E) ok P (filter_ul_write H (basen_write_data_handler H) buf).
Proof using P_writes.
  assert (Hw : forall b, safe (E:=E) ok P (ll_write H b)).
  { intros b w0 w. unfold ll_write.
    apply sf_end. apply sf_call; [apply P_writes|]. intros. apply sf_ret. }
  intros w0 w. unfold filter_ul_write.
  destruct (filter H) as [f|]; [|apply Hw].
  apply sf_emit; [apply P_writes|]. intros Hok Hx.
  refine (safe_run_fprog ok P _ _ _ _ _ Hok Hx).
  intro b. apply Hw.
Qed.

End Frames.

(** ** The operations the user calls *)

Section UserOperations.

Context {E : Type}.
Variable H : host E.

(** X2.  No operation of [basen_net_funcs] (write, open, close, free, ref,
    the two enable toggles) calls user code before it returns: completions
    and data reach the user only from the LL's callbacks, the timer and the
    deferred-op runner. *)
Theorem user_operations_never_call_back (op : user_op) (w : world E) :
  count is_user_callback (trace (final (run_user_op H op w)))
  = count is_user_callback (trace w).
Proof.
  apply extends_count.
  refine (proj2 (s_run_user_op H (fun _ => True) is_user_callback
                   (fun _ => true) I I I _ (fun e He => He) op eq_refl
                   w w I (extends_refl _ w))).
  intros; split; exact I.
Qed.

(** X3.  [basen_close] by state: in Closed, CloseWaitDrain, ClosingFilter
    and ClosingLL it returns [EBUSY], having only taken and released the
    lock; in Open it returns 0 and leaves a closing state; in OpeningLL and
    OpeningFilter it runs the same internal close and then gives up one
    reference, returning 0 if more than one was held and failing the
    assertion of [basen_deref] otherwise. *)
Theorem basen_close_by_state cd data (w : world E) :
  if state (nd w) =s? BASEN_OPEN then
    exists w',
      basen_close H cd data w = Ok 0 w'
      /\ closing_or_closed (state (nd w')) = true
      /\ state (nd w') <> BASEN_CLOSED
  else if is_opening (state (nd w)) then
    exists w1,
      basen_i_close H cd data (logged [EvLock] w) = Ok tt w1
      /\ closing_or_closed (state (nd w1)) = true
      /\ basen_close H cd data w
         = if 1 <? refcount (nd w1) then
             Ok 0 (mk_world (set_refcount (refcount (nd w1) - 1) (nd w1))
                     (env w1) (trace w1 ++ [EvUnlock]))
           else Stop AssertFailed w1
  else basen_close H cd data w = Ok EBUSY (logged [EvLock; EvUnlock] w).
Proof.
  rewrite basen_close_cases.
  destruct (state (nd w) =s? BASEN_OPEN);
    [|destruct (is_opening (state (nd w))); [|reflexivity]].
  - destruct w as [d e t]. mred.
    match goal with
    | |- context [basen_i_close H cd data ?w] =>
        destruct (basen_i_close_effect H cd data w)
          as (w' & evs & -> & _ & _ & _ & Hst)
    end.
    eexists. split; [reflexivity|]. fields.
    destruct (ll_err_occurred _); [destruct Hst as [-> _]; split;
                                   [reflexivity|discriminate]|].
    destruct (has_ll_pending _ _); [destruct Hst as [-> _]; split;
                                    [reflexivity|discriminate]|].
    destruct Hst as (_ & _ & _ & Hst).
    destruct (handshake_pending _); destruct Hst as [-> _]; split;
      solve [reflexivity|discriminate].
  - destruct w as [d e t]. mred.
    match goal with
    | |- context [basen_i_close H cd data ?w] =>
        destruct (basen_i_close_effect H cd data w)
          as (w' & evs & Heq & _ & _ & _ & Hst)
    end.
    exists w'. split; [exact Heq|]. rewrite Heq. split.
    + destruct (ll_err_occurred _); [destruct Hst as [-> _]; reflexivity|].
      destruct (has_ll_pending _ _); [destruct Hst as [-> _]; reflexivity|].
      destruct Hst as (_ & _ & _ & Hst).
      destruct (handshake_pending _); destruct Hst as [-> _]; reflexivity.
    + unfold basen_deref. mred.
      destruct (1 <? refcount (nd w')); reflexivity.
Qed.

(** X12.  Scheduling the deferred-op runner twice is scheduling it once: the
    second call finds [deferred_op_pending] set and does nothing, so one
    runner invocation and one reference stand for all pending work. *)
Theorem basen_sched_deferred_op_idempotent (w : world E) :
  (basen_sched_deferred_op ;; basen_sched_deferred_op) w
  = basen_sched_deferred_op w
  /\ exists w',
       basen_sched_deferred_op w = Ok tt w'
       /\ deferred_op_pending (nd w') = true
       /\ count (fun e => match e with EvRun => true | _ => false end)
            (trace w')
          = (count (fun e => match e with EvRun => true | _ => false end)
               (trace w)
             + if deferred_op_pending (nd w) then 0 else 1)%nat
       /\ refcount (nd w')
          = if deferred_op_pending (nd w) then refcount (nd w)
            else uint_incr (refcount (nd w)).
Proof.
  unfold bind. rewrite (basen_sched_deferred_op_eq w). cbv beta iota.
  rewrite basen_sched_deferred_op_eq.
  destruct (deferred_op_pending (nd w)) eqn:Hp.
  - rewrite Hp. split; [reflexivity|].
    eexists. split; [reflexivity|]. rewrite Hp. repeat split; lia.
  - fields. split; [reflexivity|].
    eexists. split; [reflexivity|]. fields.
    rewrite count_app. repeat split; reflexivity.
Qed.

(** X16.  A write changes no field of the endpoint other than
    [saved_xmit_err], whatever the filter and the LL do with the bytes. *)
Theorem basen_write_changes_no_state (buf : list byte) (w : world E) :
  set_saved_xmit_err 0 (nd (final (basen_write H buf w)))
  = set_saved_xmit_err 0 (nd w).
Proof.
  assert (Hs : safe (E:=E)
                 (fun d => set_saved_xmit_err 0 d = set_saved_xmit_err 0 (nd w))
                 (fun _ => false) (basen_write H buf)).
  { intros w0 w1. unfold basen_write.
    repeat sf_step ltac:(cbv beta; intros Hyp; exact Hyp)
      ltac:(reflexivity)
      ltac:(first [ apply s_set_ll_enables_frame; split; reflexivity
                  | apply s_filter_ul_write_frame; split; reflexivity ]). }
  exact (proj1 (Hs w w eq_refl (extends_refl _ w))).
Qed.

End UserOperations.

Section Lifetime.

Context {E : Type}.
Variable H : host E.

(** X4.  [basen_open] by state and by what the filter and the LL answer.
    Unless the state is Closed it returns [EBUSY] and only takes and
    releases the lock.  From Closed: if the filter's [setup] fails, its
    error is returned, the LL is not opened and no field changes; otherwise
    the enables and deferred flags are reset, the completion is recorded and
    the LL is opened: on 0 the state is OpeningFilter with [deferred_open]
    set and the runner scheduled, on [EINPROGRESS] the state is OpeningLL
    with one more reference, and both return 0; any other code is returned
    after the filter was cleaned up, with the state still Closed. *)
Theorem basen_open_by_state od data (w : world E) :
  if state (nd w) =s? BASEN_CLOSED then
    let (serr, e1) := setup_result H (env w) in
    if serr =? 0 then
      let (oerr, e2) := open (ll_ops H) e1 in
      exists w' evs,
        basen_open H od data w
        = Ok (if oerr =? EINPROGRESS then 0 else oerr) w'
        /\ trace w' = trace w ++ evs
        /\ count is_ll_open evs = 1%nat
        /\ count is_user_callback evs = 0%nat
        /\ if oerr =? 0 then
             nd w'
             = (if deferred_op_pending (nd w) then fun d => d
                else fun d => set_refcount (uint_incr (refcount d))
                                (set_deferred_op_pending true d))
                 (set_deferred_open true
                    (set_state BASEN_IN_FILTER_OPEN
                       (reset_for_open od data (nd w))))
           else if oerr =? EINPROGRESS then
             nd w'
             = set_refcount (uint_incr (refcount (nd w)))
                 (set_state BASEN_IN_LL_OPEN (reset_for_open od data (nd w)))
           else
             nd w' = reset_for_open od data (nd w)
             /\ count is_filter_cleanup evs
                = (if filter H is Some _ then 1 else 0)%nat
    else
      exists evs,
        basen_open H od data w
        = Ok serr (mk_world (nd w) e1 (trace w ++ evs))
        /\ count is_ll_open evs = 0%nat
  else basen_open H od data w = Ok EBUSY (logged [EvLock; EvUnlock] w).
Proof.
  destruct w as [d e t]. unfold basen_open, setup_result, filter_setup.
  mred. destruct (state d =s? BASEN_CLOSED) eqn:Hs;
    [|mred; rewrite <- !app_assoc; reflexivity].
  apply basen_state_eqb_eq in Hs.
  destruct (filter H) as [f|] eqn:Hf; mred.
  - destruct (setup f e) as [serr e1]. fields.
    destruct (serr =? 0) eqn:Hserr; cbn [negb]; mred.
    + unfold ll_open, filter_cleanup. rewrite Hf. mred.
      destruct (open (ll_ops H) e1) as [oerr e2]. fields.
      destruct (oerr =? 0) eqn:Ho.
      * rewrite basen_sched_deferred_op_eq. fields.
        apply Z.eqb_eq in Ho. subst oerr. cbn [Z.eqb EINPROGRESS].
        destruct (deferred_op_pending d); fields;
          (eexists _, _; split; [reflexivity|]; fields;
           split; [rewrite <- !app_assoc; reflexivity|];
           repeat split; reflexivity).
      * destruct (oerr =? EINPROGRESS) eqn:Hp; mred.
        -- eexists _, _; split; [reflexivity|]; fields.
           split; [rewrite <- !app_assoc; reflexivity|].
           repeat split; reflexivity.
        -- eexists _, _; split; [reflexivity|]; fields.
           split; [rewrite <- !app_assoc; reflexivity|].
           repeat split; reflexivity.
    + eexists; split; [rewrite <- !app_assoc; reflexivity|]. reflexivity.
  - cbn [Z.eqb negb]. unfold ll_open, filter_cleanup. rewrite Hf. mred.
    destruct (open (ll_ops H) e) as [oerr e2]. fields.
    destruct (oerr =? 0) eqn:Ho.
    + rewrite basen_sched_deferred_op_eq. fields.
      apply Z.eqb_eq in Ho. subst oerr. cbn [Z.eqb EINPROGRESS].
      destruct (deferred_op_pending d); fields;
        (eexists _, _; split; [reflexivity|]; fields;
         split; [rewrite <- !app_assoc; reflexivity|];
         repeat split; reflexivity).
    + destruct (oerr =? EINPROGRESS) eqn:Hp; mred.
      * eexists _, _; split; [reflexivity|]; fields.
        split; [rewrite <- !app_assoc; reflexivity|].
        repeat split; reflexivity.
      * eexists _, _; split; [reflexivity|]; fields.
        split; [rewrite <- !app_assoc; reflexivity|].
        repeat split; reflexivity.
Qed.

(** X5.  Taking a user reference and releasing it again leaves the
    endpoint as it was: every field and the external state are unchanged,
    and nothing is called but the lock. *)
Theorem ref_then_free_is_identity (w : world E) :
  0 < freeref (nd w) ->
  freeref (nd w) < UINT_MAX ->
  (basen_do_ref ;; basen_free H) w
  = Ok tt (logged [EvLock; EvUnlock; EvLock; EvUnlock] w).
Proof.
  intros Hpos Hmax. destruct w as [d e t]. fields in Hpos. fields in Hmax.
  unfold basen_do_ref, basen_free. mred.
  assert (Hi : uint_incr (freeref d) = freeref d + 1).
  { unfold uint_incr. apply Z.mod_small. unfold UINT_MAX in Hmax. lia. }
  rewrite Hi.
  replace (0 <? freeref d + 1) with true by (symmetry; apply Z.ltb_lt; lia).
  mred.
  replace (freeref d + 1 - 1) with (freeref d) by lia.
  replace (0 <? freeref d) with true by (symmetry; apply Z.ltb_lt; lia).
  mred. rewrite <- !app_assoc. destruct d; reflexivity.
Qed.

Lemma basen_ll_close_done_silent data (w : world E) :
  close_done (nd w) = None ->
  count is_user_callback (trace (final (basen_ll_close_done H data w)))
  = count is_user_callback (trace w).
Proof.
  intros Hn. destruct w as [d e t]. fields in Hn.
  assert (Hd : forall w1 : world E,
             count is_user_callback
               (trace (final (basen_deref_and_unlock H w1)))
             = count is_user_callback (trace w1)).
  { intros w1. apply extends_count.
    exact (proj2 (s_basen_deref_and_unlock H (fun _ => True)
                    is_user_callback (fun e He => He) w1 w1 I
                    (extends_refl _ w1))). }
  unfold basen_ll_close_done, basen_finish_close, filter_cleanup.
  destruct (filter H) as [f|]; mred; rewrite Hn; mred; rewrite Hd; fields;
    rewrite !count_app; cbn; lia.
Qed.

(** X6.  When the user drops the last reference while the close is already
    in the filter's or the LL's hands, the close callback is forgotten: the
    free clears [close_done], and the completion of the LL's close then
    calls no user code at all. *)
Theorem basen_free_suppresses_close_done (w : world E) :
  (state (nd w) =s? BASEN_IN_FILTER_CLOSE)
  || (state (nd w) =s? BASEN_IN_LL_CLOSE) = true ->
  freeref (nd w) = 1 ->
  1 < refcount (nd w) ->
  exists w',
    basen_free H w = Ok tt w'
    /\ nd w'
       = set_refcount (refcount (nd w) - 1)
           (set_close_done None (set_freeref 0 (nd w)))
    /\ env w' = env w
    /\ forall data,
         count is_user_callback
           (trace (final (basen_ll_close_done H data w')))
         = count is_user_callback (trace w').
Proof.
  intros Hs Hf Hr. destruct w as [d e t].
  fields in Hs. fields in Hf. fields in Hr.
  unfold basen_free, basen_deref_and_unlock. mred. rewrite Hf.
  cbn [Z.ltb Z.compare Z.sub Z.add Z.opp Z.pos_sub]. mred. rewrite Hs. mred.
  replace (0 <? refcount d) with true by (symmetry; apply Z.ltb_lt; lia).
  mred.
  replace (refcount d - 1 =? 0) with false by (symmetry; apply Z.eqb_neq; lia).
  eexists. split; [reflexivity|]. fields.
  split; [reflexivity|]. split; [reflexivity|].
  intros data. now apply basen_ll_close_done_silent.
Qed.

(** X7.  The last release of a closed endpoint tears it down: the timer is
    stopped, and the object is freed at once if the timer reports
    [ETIMEDOUT] (no callback pending); otherwise the free is left to the
    timer's stop callback, [basen_timer_stopped]. *)
Theorem last_free_of_closed_endpoint (w : world E) :
  state (nd w) = BASEN_CLOSED ->
  freeref (nd w) = 1 ->
  refcount (nd w) = 1 ->
  let (terr, e1) := stop_timer_with_done H (env w) in
  basen_free H w
  = Ok tt
      (mk_world (set_refcount 0 (set_freeref 0 (nd w))) e1
         (trace w ++ [EvLock; EvUnlock; EvStopTimer]
                  ++ if terr =? ETIMEDOUT then [EvFinishFree] else []))
  /\ forall w1 : world E,
       count is_finish_free (trace (final (basen_timer_stopped w1)))
       = S (count is_finish_free (trace w1)).
Proof.
  intros Hs Hf Hr. destruct w as [d e t].
  fields in Hs. fields in Hf. fields in Hr.
  unfold basen_free, basen_deref_and_unlock, basen_finish_free. mred.
  rewrite Hf. cbn [Z.ltb Z.compare Z.sub Z.add Z.opp Z.pos_sub]. mred.
  rewrite Hs. cbn [basen_state_eqb orb negb]. mred.
  rewrite Hr. cbn [Z.ltb Z.eqb Z.compare Z.sub Z.add Z.opp Z.pos_sub]. mred.
  destruct (stop_timer_with_done H e) as [terr e1]. fields.
  split.
  - destruct (terr =? ETIMEDOUT); cbn [negb]; mred;
      rewrite <- ?app_assoc; reflexivity.
  - intros w1. unfold basen_timer_stopped, basen_finish_free. mred.
    rewrite count_app. cbn. lia.
Qed.

(** X8.  Back-pressure on the LL's read callback.  While a read is being
    delivered ([in_read]), data the LL offers is refused: nothing is
    consumed, the filter is not called, and LL read interest stays off (the
    arbiter is not run).  An empty buffer is consumed trivially: the filter
    is not called and the arbiter decides about the enables. *)
Theorem basen_ll_read_back_pressure (w : world E) :
  if in_read (nd w) then
    forall buf,
      basen_ll_read H 0 buf w
      = Ok 0 (logged [EvLock; EvLLSetReadEnable false; EvUnlock] w)
  else
    basen_ll_read H 0 [] w
    = Ok 0 (logged (EvLock :: EvLLSetReadEnable false
                      :: ll_enables H w ++ [EvUnlock]) w).
Proof.
  destruct w as [d e t]. fields. unfold basen_ll_read.
  cbn [Z.eqb negb].
  destruct (in_read d) eqn:Hin.
  - intros buf. mred. rewrite Hin. mred.
    rewrite <- !app_assoc. reflexivity.
  - mred. rewrite Hin. mred. rewrite basen_set_ll_enables_eq.
    unfold logged. fields.
    rewrite (ll_enables_trace H d e _ t), <- !app_assoc. reflexivity.
Qed.

Lemma basen_try_connect_blocked_closing (P : event -> bool) :
  safe (E:=E) (fun d => closing_or_closed (state d) = true) P
    (basen_try_connect H).
Proof.
  intros w0 w Hok Hx. unfold basen_try_connect, bind, get, assert.
  destruct (state (nd w)) eqn:Hs; cbn in *; try discriminate;
    (split; [rewrite Hs; reflexivity|assumption]).
Qed.

(** X15.  An endpoint on its way down stays on its way down: from
    CloseWaitDrain, ClosingFilter, ClosingLL or Closed, no LL callback,
    timer, runner or user call (other than a new open) brings the state
    back to Open or to an opening state. *)
Theorem closing_endpoint_stays_closing (l : list input) (w : world E) :
  scripts_allow not_open H ->
  forallb close_side l = true ->
  closing_or_closed (state (nd w)) = true ->
  closing_or_closed (state (nd (final (deliver_all H l w)))) = true.
Proof.
  intros Hscr Hl Hst.
  refine (proj1 (s_deliver_all H (fun s => closing_or_closed s = true)
                   (fun _ => false) not_open _ _ _ _ _ (fun _ _ => eq_refl)
                   _ _ _ _ Hscr (basen_try_connect_blocked_closing _) _
                   l Hl w w Hst (extends_refl _ w)));
    try discriminate; try reflexivity.
  unfold not_open. intros op ->. reflexivity.
Qed.

End Lifetime.

(** ** Completions and the LL's callbacks *)

Section Completions.

Context {E : Type}.
Variable H : host E.

Lemma run_user_ops_extends (P : event -> bool) ops (w : world E) :
  (forall e, is_user_callback e = false -> P e = false) ->
  extends P w (final (run_user_ops H ops w)).
Proof.
  intros HP.
  refine (proj2 (s_run_user_ops H (fun _ => True) P
                   (fun _ => true) I I I _ HP ops _ w w I
                   (extends_refl _ w))).
  - intros; split; exact I.
  - clear. induction ops; auto.
Qed.

Lemma filter_cleanup_eq (w : world E) :
  filter_cleanup H w
  = Ok tt (mk_world (nd w) (cleanup_result H (env w))
             (trace w ++ cleanup_events H)).
Proof.
  destruct w as [d e t].
  unfold filter_cleanup, cleanup_result, cleanup_events.
  destruct (filter H); mred; [reflexivity|]. now rewrite app_nil_r.
Qed.

(** X14.  [basen_finish_close] cleans the filter up and sets the state to
    Closed.  If a [close_done] is recorded it is then invoked exactly once,
    with the close data and the lock released, on the endpoint in state
    Closed; what the callback calls on the endpoint runs from there, and
    the lock is taken again.  With none recorded no user code is called. *)
Theorem basen_finish_close_completion (w : world E) :
  let closed := set_state BASEN_CLOSED (nd w) in
  let e0 := cleanup_result H (env w) in
  match close_done (nd w) with
  | Some fn =>
      let t0 := trace w ++ cleanup_events H
                  ++ [EvUnlock; EvCloseDone fn (close_data (nd w))] in
      let '((_, ops), e1) := close_done_fn H fn (close_data (nd w)) e0 in
      basen_finish_close H w
      = (run_user_ops H ops ;; basen_lock) (mk_world closed e1 t0)
      /\ exists evs,
           trace (final (basen_finish_close H w)) = t0 ++ evs
           /\ count is_user_callback evs = 0%nat
  | None =>
      basen_finish_close H w
      = Ok tt (mk_world closed e0 (trace w ++ cleanup_events H))
  end.
Proof.
  destruct w as [d e t]. cbv zeta. fields.
  destruct (close_done d) as [fn|] eqn:Hcd.
  2: { unfold basen_finish_close. unfold bind at 1.
       rewrite filter_cleanup_eq. mred. rewrite Hcd. reflexivity. }
  destruct (close_done_fn H fn (close_data d) (cleanup_result H e))
    as [[u ops] e1] eqn:Hcb.
  assert (Heq : basen_finish_close H (mk_world d e t)
                = (run_user_ops H ops ;; basen_lock)
                    (mk_world (set_state BASEN_CLOSED d) e1
                       (t ++ cleanup_events H
                          ++ [EvUnlock; EvCloseDone fn (close_data d)]))).
  { unfold basen_finish_close. unfold bind at 1.
    rewrite filter_cleanup_eq. mred. rewrite Hcd.
    unfold user_call. mred. rewrite Hcb. fields.
    rewrite <- !app_assoc. cbn [app].
    match goal with
    | |- context [run_user_ops H ops ?x] => destruct (run_user_ops H ops x)
    end; reflexivity. }
  rewrite Heq. split; [reflexivity|]. mred.
  match goal with
  | |- context [run_user_ops H ops ?x] =>
      destruct (run_user_ops_extends is_user_callback ops x (fun e He => He))
        as (evs & Ht & Hc);
      destruct (run_user_ops H ops x) as [u1 w1|f1 w1]
  end; fields; fields in Ht.
  - exists (evs ++ [EvLock]). rewrite Ht, <- !app_assoc.
    split; [reflexivity|]. rewrite count_app, Hc. reflexivity.
  - exists evs. rewrite Ht, <- !app_assoc. split; [reflexivity|exact Hc].
Qed.

(** X17.  [basen_finish_open]: on an error the state becomes Closed and the
    filter is cleaned up, otherwise the state becomes Open.  If an
    [open_done] is recorded it is then invoked exactly once, with that
    error and the lock released, on the endpoint in that state; what the
    callback calls on the endpoint runs from there, and the lock is taken
    again.  With none recorded no user code is called. *)
Theorem basen_finish_open_completion (err : Z) (w : world E) :
  let s := if err =? 0 then BASEN_OPEN else BASEN_CLOSED in
  let evs0 := if err =? 0 then [] else cleanup_events H in
  let e0 := if err =? 0 then env w else cleanup_result H (env w) in
  match open_done (nd w) with
  | Some fn =>
      let t0 := trace w ++ evs0
                  ++ [EvUnlock; EvOpenDone fn err (open_data (nd w))] in
      let '((_, ops), e1) := open_done_fn H fn err (open_data (nd w)) e0 in
      basen_finish_open H err w
      = (run_user_ops H ops ;; basen_lock)
          (mk_world (set_state s (nd w)) e1 t0)
      /\ exists evs,
           trace (final (basen_finish_open H err w)) = t0 ++ evs
           /\ count is_user_callback evs = 0%nat
  | None =>
      basen_finish_open H err w
      = Ok tt (mk_world (set_state s (nd w)) e0 (trace w ++ evs0))
  end.
Proof.
  destruct w as [d e t]. cbv zeta. fields.
  assert (Hpre : (if negb (err =? 0)
                   then modify (set_state BASEN_CLOSED) ;; filter_cleanup H
                   else modify (set_state BASEN_OPEN))
                   (mk_world d e t)
                 = Ok tt
                     (mk_world
                        (set_state (if err =? 0 then BASEN_OPEN
                                    else BASEN_CLOSED) d)
                        (if err =? 0 then e else cleanup_result H e)
                        (t ++ if err =? 0 then [] else cleanup_events H))).
  { destruct (err =? 0); cbn [negb].
    - mred. rewrite app_nil_r. reflexivity.
    - unfold bind at 1. mred. rewrite filter_cleanup_eq. reflexivity. }
  destruct (open_done d) as [fn|] eqn:Hod.
  2: { unfold basen_finish_open. unfold bind at 1. rewrite Hpre.
       mred. rewrite Hod. reflexivity. }
  destruct (open_done_fn H fn err (open_data d)
              (if err =? 0 then e else cleanup_result H e))
    as [[u ops] e1] eqn:Hcb.
  assert (Heq : basen_finish_open H err (mk_world d e t)
                = (run_user_ops H ops ;; basen_lock)
                    (mk_world
                       (set_state (if err =? 0 then BASEN_OPEN
                                   else BASEN_CLOSED) d)
                       e1
                       (t ++ (if err =? 0 then [] else cleanup_events H)
                          ++ [EvUnlock; EvOpenDone fn err (open_data d)]))).
  { unfold basen_finish_open. unfold bind at 1. rewrite Hpre.
    unfold user_call. mred. rewrite Hod. mred. rewrite Hcb. fields.
    rewrite <- !app_assoc. cbn [app].
    match goal with
    | |- context [run_user_ops H ops ?x] => destruct (run_user_ops H ops x)
    end; reflexivity. }
  rewrite Heq. split; [reflexivity|]. mred.
  match goal with
  | |- context [run_user_ops H ops ?x] =>
      destruct (run_user_ops_extends is_user_callback ops x (fun e He => He))
        as (evs & Ht & Hc);
      destruct (run_user_ops H ops x) as [u1 w1|f1 w1]
  end; fields; fields in Ht.
  - exists (evs ++ [EvLock]). rewrite Ht, <- !app_assoc.
    split; [reflexivity|]. rewrite count_app, Hc. reflexivity.
  - exists evs. rewrite Ht, <- !app_assoc. split; [reflexivity|exact Hc].
Qed.

(** X11.  What [genio_alloc] does and returns.  It asks the host for the
    object, the lock, the timer and the runner, in this order; if the
    object is refused it returns NULL at once, and at the first of the
    other three that is refused it frees what it has and returns NULL.
    Otherwise it hands its callbacks to the filter, if there is one, and to
    the LL.  A client endpoint is then born Closed with one internal and
    one user reference and nothing else set.  A server endpoint runs the
    filter's [setup]; if that fails the object is freed and NULL returned;
    otherwise it is born in OpeningFilter with the completion recorded and
    [tmp_xmit_enabled] set, and the arbiter turns on LL write and LL read
    interest, so that the first write-ready callback starts the
    handshake. *)
Theorem genio_alloc_result (is_client : bool) od data (w : world E) :
  let born := set_freeref 1 (set_refcount 1 zalloc) in
  let (ndata, e0) := os_zalloc H (env w) in
  if negb ndata then
    genio_alloc H is_client od data w
    = Ok None (mk_world (nd w) e0 (trace w ++ [EvZalloc]))
  else
    let (lock, e1) := alloc_lock H e0 in
    if negb lock then
      genio_alloc H is_client od data w
      = Ok None
          (mk_world born e1
             (trace w ++ [EvZalloc; EvAllocLock; EvFinishFree]))
    else
      let (timer, e2) := alloc_timer H e1 in
      if negb timer then
        genio_alloc H is_client od data w
        = Ok None
            (mk_world born e2
               (trace w ++ [EvZalloc; EvAllocLock; EvAllocTimer;
                            EvFinishFree]))
      else
        let (runner, e3) := alloc_runner H e2 in
        if negb runner then
          genio_alloc H is_client od data w
          = Ok None
              (mk_world born e3
                 (trace w ++ [EvZalloc; EvAllocLock; EvAllocTimer;
                              EvAllocRunner; EvFinishFree]))
        else
          let pre := [EvZalloc; EvAllocLock; EvAllocTimer; EvAllocRunner]
                     ++ (if filter H is Some _ then [EvFilterSetCallbacks]
                         else [])
                     ++ [EvLLSetCallbacks] in
          if is_client then
            genio_alloc H true od data w
            = Ok (Some tt) (mk_world born e3 (trace w ++ pre))
          else
            let (serr, e4) := setup_result H e3 in
            let evs0 := if filter H is Some _ then [EvFilterSetup] else [] in
            if serr =? 0 then
              genio_alloc H false od data w
              = Ok (Some tt)
                  (mk_world
                     (set_tmp_xmit_enabled true
                        (set_state BASEN_IN_FILTER_OPEN
                           (set_open_data data (set_open_done od born))))
                     e4
                     (trace w ++ pre ++ evs0
                        ++ [EvLLSetWriteEnable true; EvLLSetReadEnable true]))
            else
              genio_alloc H false od data w
              = Ok None
                  (mk_world born e4
                     (trace w ++ pre ++ evs0 ++ [EvFinishFree])).
Proof.
  destruct w as [d e t]. cbv zeta. fields.
  unfold genio_alloc, out_nomem, basen_finish_free. mred.
  destruct (os_zalloc H e) as [[|] e0]; cbn [negb]; mred; [|reflexivity].
  destruct (alloc_lock H e0) as [[|] e1]; cbn [negb]; mred;
    [|rewrite <- !app_assoc; reflexivity].
  destruct (alloc_timer H e1) as [[|] e2]; cbn [negb]; mred;
    [|rewrite <- !app_assoc; reflexivity].
  destruct (alloc_runner H e2) as [[|] e3]; cbn [negb]; mred;
    [|rewrite <- !app_assoc; reflexivity].
  unfold setup_result, filter_setup.
  destruct is_client.
  - destruct (filter H) as [f|]; mred; rewrite <- !app_assoc; reflexivity.
  - destruct (filter H) as [f|] eqn:Hf; mred.
    + destruct (setup f e3) as [serr e4]. fields.
      destruct (serr =? 0); cbn [negb]; mred.
      * rewrite basen_set_ll_enables_eq.
        unfold logged, ll_enables, ll_write_wanted, ll_read_wanted. fields.
        cbn [basen_state_eqb negb orb andb].
        rewrite !orb_true_r. cbn [andb app].
        rewrite <- !app_assoc. reflexivity.
      * rewrite <- !app_assoc. reflexivity.
    + cbn [Z.eqb negb]. mred. rewrite basen_set_ll_enables_eq.
      unfold logged, ll_enables, ll_write_wanted, ll_read_wanted. fields.
      cbn [basen_state_eqb negb orb andb].
      rewrite !orb_true_r. cbn [andb app].
      rewrite <- !app_assoc. reflexivity.
Qed.

Lemma basen_i_close_keeps_read_error cd data (w : world E) :
  read_enabled (nd w) = false ->
  ll_err_occurred (nd w) = true ->
  read_enabled (nd (final (basen_i_close H cd data w))) = false
  /\ ll_err_occurred (nd (final (basen_i_close H cd data w))) = true.
Proof.
  intros Hr Hl.
  assert (Hs : safe (E:=E)
                 (fun d => read_enabled d = false /\ ll_err_occurred d = true)
                 (fun _ => false) (basen_i_close H cd data)).
  { intros w0 w1. unfold basen_i_close.
    repeat sf_step ltac:(cbv beta; intros Hyp; exact Hyp)
      ltac:(reflexivity) ltac:(fail). }
  exact (proj1 (Hs w w (conj Hr Hl) (extends_refl _ w))).
Qed.

(** X9.  An LL read error, by state.  While opening, or while draining or
    in the filter's close, [read_enabled] is cleared, [ll_err_occurred] is
    set, the state becomes ClosingLL and the LL's close is issued once
    (with [basen_ll_close_on_err] while opening, [basen_ll_close_done]
    otherwise, and [ndata] as its data) without calling the user.
    Otherwise, with callbacks installed, LL read interest is turned off and
    the user's [read_callback] gets the error with a NULL buffer, called
    with the lock released; without callbacks installed an internal close
    with no [close_done] is started, which goes straight to ClosingLL, with
    [read_enabled] cleared and [ll_err_occurred] set. *)
Theorem basen_ll_read_error_effect (readerr : Z) (buf : list byte)
  (w : world E) :
  readerr <> 0 ->
  if is_opening (state (nd w)) || (state (nd w) =s? BASEN_CLOSE_WAIT_DRAIN)
     || (state (nd w) =s? BASEN_IN_FILTER_CLOSE) then
    exists w' evs,
      basen_ll_read H readerr buf w = Ok 0 w'
      /\ trace w' = trace w ++ evs
      /\ state (nd w') = BASEN_IN_LL_CLOSE
      /\ read_enabled (nd w') = false
      /\ ll_err_occurred (nd w') = true
      /\ In (EvLLClose (if is_opening (state (nd w))
                        then Basen_ll_close_on_err else Basen_ll_close_done)
               (this H)) evs
      /\ count is_ll_close evs = 1%nat
      /\ count is_user_callback evs = 0%nat
  else
    match cbs H with
    | Some c =>
        exists evs,
          trace (final (basen_ll_read H readerr buf w))
          = trace w ++ [EvLock; EvLLSetReadEnable false; EvUnlock;
                        EvReadCallback readerr None] ++ evs
          /\ count is_user_callback evs = 0%nat
    | None =>
        exists w',
          basen_ll_read H readerr buf w = Ok 0 w'
          /\ state (nd w') = BASEN_IN_LL_CLOSE
          /\ close_done (nd w') = None
          /\ read_enabled (nd w') = false
          /\ ll_err_occurred (nd w') = true
    end.
Proof.
  intros Herr. apply Z.eqb_neq in Herr.
  destruct w as [d e t]. unfold basen_ll_read, is_opening. rewrite Herr.
  cbn [negb]. fields. mred.
  destruct (state d) eqn:Hs; cbn [basen_state_eqb orb]; mred.
  1, 4, 7:
    destruct (cbs H) as [c|];
    [ unfold user_call; mred;
      destruct (read_callback c readerr None e) as [[n ops] e']; fields;
      match goal with
      | |- context [run_user_ops H ops ?x] =>
          destruct (run_user_ops_extends is_user_callback ops x
                      (fun e He => He)) as (evs & Ht & Hc);
          destruct (run_user_ops H ops x) as [u1 w1|f1 w1]
      end; fields; fields in Ht;
      [ rewrite basen_set_ll_enables_eq; unfold logged; fields;
        eexists; rewrite Ht, <- !app_assoc; split; [reflexivity|];
        rewrite !count_app, Hc, count_ll_enables by reflexivity; reflexivity
      | exists evs; rewrite Ht, <- !app_assoc; split; [reflexivity|exact Hc] ]
    | match goal with
      | |- context [basen_i_close H None 0 ?x] =>
          destruct (basen_i_close_effect H None 0 x)
            as (w' & evs & Heq & _ & Hcd & _ & Hst);
          destruct (basen_i_close_keeps_read_error None 0 x eq_refl eq_refl)
            as [Hre Hle];
          rewrite Heq in Hre, Hle |- *
      end;
      fields in Hst; fields in Hre; fields in Hle;
      destruct Hst as (Hst & _ & _);
      rewrite basen_set_ll_enables_eq; unfold logged; fields;
      eexists; split; [reflexivity|]; fields; auto ].
  all: unfold ll_close; mred;
    match goal with
    | |- context [close (ll_ops H) ?done (this H) ?x] =>
        destruct (close (ll_ops H) done (this H) x) as [r e1]
    end;
    destruct (r =? EINPROGRESS); mred;
    [ | rewrite basen_sched_deferred_op_eq; fields;
        match goal with
        | |- context [deferred_op_pending ?x] =>
            destruct (deferred_op_pending x)
        end; fields ];
    rewrite basen_set_ll_enables_eq; unfold logged; fields;
    (eexists _, _; split; [reflexivity|]; fields;
     split; [rewrite <- !app_assoc; reflexivity|];
     do 3 (split; [reflexivity|]);
     split; [cbn; auto|];
     rewrite !count_app, !count_ll_enables by reflexivity;
     split; reflexivity).
Qed.

(** X13.  One step of the open handshake, by what the filter answers.
    Outside OpeningFilter [basen_try_connect] fails its assertion.  In
    OpeningFilter it turns both LL interests off and calls the filter's
    [try_connect]: on [EINPROGRESS] nothing else happens; on [EAGAIN] the
    timer is started with the filter's timeout; on success followed by a
    successful [check_open_done] the open is finished with error 0; on any
    other error, from either call, the state becomes ClosingLL and the
    LL's close is issued with [basen_ll_close_on_err], without calling the
    user. *)
Theorem basen_try_connect_outcomes (w : world E) :
  if state (nd w) =s? BASEN_IN_FILTER_OPEN then
    let '((err, tv), e1) := connect_result H (env w) in
    let pre := [EvLLSetWriteEnable false; EvLLSetReadEnable false]
               ++ if filter H is Some _ then [EvFilterTryConnect] else [] in
    if err =? EINPROGRESS then
      basen_try_connect H w = Ok tt (mk_world (nd w) e1 (trace w ++ pre))
    else if err =? EAGAIN then
      basen_try_connect H w
      = Ok tt (mk_world (nd w) e1 (trace w ++ pre ++ [EvStartTimer tv]))
    else
      let (cerr, e2) := if err =? 0 then check_result H e1 else (err, e1) in
      let chk := if (err =? 0) && (if filter H is Some _ then true else false)
                 then [EvFilterCheckOpenDone] else [] in
      if cerr =? 0 then
        basen_try_connect H w
        = basen_finish_open H 0 (mk_world (nd w) e2 (trace w ++ pre ++ chk))
      else
        exists w' evs,
          basen_try_connect H w = Ok tt w'
          /\ trace w' = trace w ++ pre ++ chk ++ evs
          /\ state (nd w') = BASEN_IN_LL_CLOSE
          /\ In (EvLLClose Basen_ll_close_on_err (this H)) evs
          /\ count is_ll_close evs = 1%nat
          /\ count is_user_callback evs = 0%nat
  else basen_try_connect H w = Stop AssertFailed w.
Proof.
  destruct w as [d e t].
  unfold basen_try_connect, connect_result, check_result,
    filter_try_connect, filter_check_open_done.
  mred. destruct (state d =s? BASEN_IN_FILTER_OPEN); cbn [negb]; mred;
    [|reflexivity].
  assert (Hclose : forall err0 e0 t0,
             exists w' evs,
               ll_close H Basen_ll_close_on_err err0
                 (mk_world (set_state BASEN_IN_LL_CLOSE d) e0 t0) = Ok tt w'
               /\ trace w' = t0 ++ evs
               /\ state (nd w') = BASEN_IN_LL_CLOSE
               /\ In (EvLLClose Basen_ll_close_on_err (this H)) evs
               /\ count is_ll_close evs = 1%nat
               /\ count is_user_callback evs = 0%nat).
  { intros err0 e0 t0.
    destruct (ll_close_effect H Basen_ll_close_on_err err0
                (mk_world (set_state BASEN_IN_LL_CLOSE d) e0 t0))
      as (w' & evs & Heq & Ht & Hevs & _ & Hs & _).
    exists w', (EvLLClose Basen_ll_close_on_err (this H) :: evs).
    fields in Ht. fields in Hs.
    repeat split; auto; [cbn; auto| |];
      destruct Hevs as [-> | ->]; reflexivity. }
  destruct (filter H) as [f|]; mred.
  - destruct (try_connect f e) as [[err tv] e1]. fields.
    destruct (err =? EINPROGRESS);
      [mred; rewrite <- !app_assoc; reflexivity|].
    destruct (err =? EAGAIN);
      [mred; rewrite <- !app_assoc; reflexivity|].
    destruct (err =? 0) eqn:Herr; mred.
    + destruct (check_open_done f e1) as [cerr e2]. fields.
      destruct (cerr =? 0); cbn [negb andb]; mred.
      * rewrite <- !app_assoc. reflexivity.
      *
        match goal with
        | |- context [ll_close H _ ?a (mk_world _ ?b ?c)] =>
            destruct (Hclose a b c) as (w' & evs & -> & Ht & Hr)
        end.
        exists w', evs. split; [reflexivity|].
        rewrite Ht, <- !app_assoc. split; [reflexivity|exact Hr].
    + rewrite Herr. cbn [negb andb]. mred.
      match goal with
      | |- context [ll_close H _ ?a (mk_world _ ?b ?c)] =>
          destruct (Hclose a b c) as (w' & evs & -> & Ht & Hr)
      end.
      exists w', evs. split; [reflexivity|].
      rewrite Ht, <- !app_assoc. split; [reflexivity|exact Hr].
  - cbn [Z.eqb EINPROGRESS EAGAIN Pos.eqb negb andb]. mred.
    rewrite <- !app_assoc. reflexivity.
Qed.

Lemma bind_assoc_at {A B C} (m : M E A) (k1 : A -> M E B)
  (k2 : B -> M E C) (w : world E) :
  bind (bind m k1) k2 w = bind m (fun a => bind (k1 a) k2) w.
Proof. unfold bind. destruct (m w); reflexivity. Qed.

Lemma bind_ext_at {A B} (m : M E A) (k k' : A -> M E B) (w : world E) :
  (forall a w', k a w' = k' a w') -> bind m k w = bind m k' w.
Proof. intros Hk. unfold bind. destruct (m w); auto. Qed.

Lemma basen_ll_write_ready_flush_split (w : world E) :
  basen_ll_write_ready_flush H w
  = (basen_ll_write_ready_drain H ;;
     d <- get ;;
     wp <- filter_ll_write_pending H ;;
     when ((state d =s? BASEN_CLOSE_WAIT_DRAIN) && negb wp)
       (modify (set_state BASEN_IN_FILTER_CLOSE)) ;;
     d <- get ;;
     when (state d =s? BASEN_IN_FILTER_OPEN) (basen_try_connect H) ;;
     d <- get ;;
     when (state d =s? BASEN_IN_FILTER_CLOSE) (basen_try_close H)) w.
Proof.
  unfold basen_ll_write_ready_flush, basen_ll_write_ready_drain.
  symmetry. rewrite bind_assoc_at. apply bind_ext_at. intros _ w1.
  rewrite bind_assoc_at. apply bind_ext_at. intros _ w2.
  rewrite bind_assoc_at. apply bind_ext_at. intros wp w3.
  reflexivity.
Qed.

Lemma basen_ll_write_ready_drain_frame (s0 : basen_state) (w : world E) :
  state (nd w) = s0 ->
  state (nd (final (basen_ll_write_ready_drain H w))) = s0
  /\ count is_ll_close (trace (final (basen_ll_write_ready_drain H w)))
     = count is_ll_close (trace w).
Proof.
  intros Hs.
  assert (Hsafe : safe (E:=E) (fun d => state d = s0) is_ll_close
                    (basen_ll_write_ready_drain H)).
  { intros w0 w1. unfold basen_ll_write_ready_drain.
    repeat sf_step ltac:(cbv beta; intros Hyp; exact Hyp)
      ltac:(reflexivity)
      ltac:(apply s_filter_ul_write_frame; split; reflexivity). }
  destruct (Hsafe w w Hs (extends_refl _ w)) as [H1 H2].
  split; [exact H1|now apply extends_count].
Qed.

(** X10.  Drain before close.  A write-ready callback in CloseWaitDrain
    first flushes the filter, which issues no LL close and leaves the
    state; if the filter still holds LL-bound bytes after that, nothing
    more happens and the endpoint keeps waiting; once the filter is
    drained, the state becomes ClosingFilter and [basen_try_close] runs. *)
Theorem close_waits_for_drain (w : world E) :
  state (nd w) = BASEN_CLOSE_WAIT_DRAIN ->
  match basen_ll_write_ready_drain H w with
  | Ok _ w1 =>
      state (nd w1) = BASEN_CLOSE_WAIT_DRAIN
      /\ count is_ll_close (trace w1) = count is_ll_close (trace w)
      /\ if has_ll_pending H w1 then
           basen_ll_write_ready_flush H w = Ok tt w1
         else
           basen_ll_write_ready_flush H w
           = basen_try_close H
               (mk_world (set_state BASEN_IN_FILTER_CLOSE (nd w1)) (env w1)
                  (trace w1))
  | Stop f w1 => basen_ll_write_ready_flush H w = Stop f w1
  end.
Proof.
  intros Hs.
  destruct (basen_ll_write_ready_drain_frame BASEN_CLOSE_WAIT_DRAIN w Hs)
    as [Hst Hc].
  assert (Hsplit := basen_ll_write_ready_flush_split w).
  unfold bind at 1 in Hsplit.
  destruct (basen_ll_write_ready_drain H w) as [u w1|f w1];
    [|exact Hsplit].
  fields in Hst. fields in Hc. split; [exact Hst|]. split; [exact Hc|].
  rewrite Hsplit. clear Hsplit.
  destruct w1 as [d1 e1 t1]. fields in Hst.
  mred. rewrite filter_ll_write_pending_eq. mred. rewrite Hst.
  cbn [basen_state_eqb andb].
  destruct (has_ll_pending H (mk_world d1 e1 t1)); cbn [negb]; mred;
    rewrite ?Hst; cbn [basen_state_eqb]; mred; rewrite ?Hst;
    cbn [basen_state_eqb]; reflexivity.
Qed.

(** X18.  The flush of the write-ready callback changes no field but
    [saved_xmit_err]; that field takes the filter's error when the flush
    fails and is left alone when it succeeds or when nothing is pending
    (in which case the filter is not called at all). *)
Theorem drain_records_flush_error (w : world E) :
  set_saved_xmit_err 0 (nd (final (basen_ll_write_ready_drain H w)))
  = set_saved_xmit_err 0 (nd w)
  /\ if has_ll_pending H w then
       match filter_ul_write H (basen_write_data_handler H) None
               (logged [EvLock; EvLLSetWriteEnable false] w) with
       | Ok (err, _) w0 =>
           exists w1,
             basen_ll_write_ready_drain H w = Ok tt w1
             /\ trace w1 = trace w0
             /\ saved_xmit_err (nd w1)
                = if err =? 0 then saved_xmit_err (nd w) else err
       | Stop f w0 => basen_ll_write_ready_drain H w = Stop f w0
       end
     else
       basen_ll_write_ready_drain H w
       = Ok tt (logged [EvLock; EvLLSetWriteEnable false] w).
Proof.
  split.
  - assert (Hsafe : safe (E:=E)
                      (fun d => set_saved_xmit_err 0 d
                                = set_saved_xmit_err 0 (nd w))
                      (fun _ => false) (basen_ll_write_ready_drain H)).
    { intros w0 w1. unfold basen_ll_write_ready_drain.
      repeat sf_step ltac:(cbv beta; intros Hyp; exact Hyp)
        ltac:(reflexivity)
        ltac:(apply s_filter_ul_write_frame; split; reflexivity). }
    exact (proj1 (Hsafe w w eq_refl (extends_refl _ w))).
  - destruct w as [d e t]. unfold basen_ll_write_ready_drain. mred.
    rewrite filter_ll_write_pending_eq. unfold has_ll_pending. fields.
    destruct (match filter H with
              | Some f => ll_write_pending f e
              | None => false
              end); [|rewrite <- !app_assoc; reflexivity].
    rewrite <- !app_assoc. cbn [app].
    pose proof (fun w0 =>
                  s_filter_ul_write_frame H
                    (fun d0 => saved_xmit_err d0 = saved_xmit_err d)
                    (fun _ => false)
                    (fun _ => conj eq_refl eq_refl) None w0 w0) as Hfr.
    match goal with
    | |- context [filter_ul_write H _ None ?x] =>
        specialize (Hfr x eq_refl (extends_refl _ x));
        destruct (filter_ul_write H (basen_write_data_handler H) None x)
          as [[err n] w0|f w0]
    end; [|reflexivity].
    destruct Hfr as [Hfr _]. fields in Hfr.
    destruct (err =? 0); cbn [negb]; mred;
      (eexists; split; [reflexivity|]; fields; auto).
Qed.

End Completions.

(** ** The deferred-op runner *)

Section SteadyRules.

Context {E : Type}.
















End SteadyRules.


Create HintDb steady_db.

Section RunnerCode.

Context {E : Type}.
Variable H : host E.
Hypothesis quiet_scripts : scripts_allow no_calls H.

Lemma no_calls_nil (l : list user_op) : forallb no_calls l = true -> l = [].
Proof. destruct l; [reflexivity|discriminate]. Qed.

Lemma steady_user_call {A} ok e (f : E -> (A * list user_op) * E) :
  (forall x, forallb no_calls (script_of (f x)) = true) ->
  steady ok (user_call H e f).
Proof.
  intros Hf w Hok. specialize (Hf (env w)). apply no_calls_nil in Hf.
  unfold st_at, user_call, bind, call, script_of in *.
  destruct (f (env w)) as [[a ops] e']. cbn [fst snd] in Hf. subst ops.
  exact Hok.
Qed.

Lemma steady_user_read ok c err buf :
  cbs H = Some c ->
  steady ok (user_call H (EvReadCallback err buf) (read_callback c err buf)).
Proof.
  intros Hc. apply steady_user_call. intro x.
  apply (proj1 (proj1 quiet_scripts c Hc)).
Qed.

Lemma steady_user_close_done ok fn data :
  steady ok (user_call H (EvCloseDone fn data) (close_done_fn H fn data)).
Proof. apply steady_user_call. intro x. apply quiet_scripts. Qed.

Lemma steady_user_open_done ok fn err data :
  steady ok (user_call H (EvOpenDone fn err data) (open_done_fn H fn err data)).
Proof. apply steady_user_call. intro x. apply quiet_scripts. Qed.

Hint Resolve steady_user_read steady_user_close_done steady_user_open_done
  : steady_db.

(** Invariants of the three deferred flags. *)
Section Flags.

Variable ok : basen_data -> Prop.

(** [ok] looks at [deferred_open] and [deferred_read] only. *)
Hypothesis ok_two : forall d d',
  deferred_open d' = deferred_open d -> deferred_read d' = deferred_read d ->
  ok d -> ok d'.



End Flags.

Section AllFlags.

Variable ok : basen_data -> Prop.

(** [ok] looks at the three deferred flags only. *)
Hypothesis ok_three : forall d d',
  deferred_open d' = deferred_open d ->
  deferred_close d' = deferred_close d ->
  deferred_read d' = deferred_read d ->
  ok d -> ok d'.





End AllFlags.


End RunnerCode.

(** ** The timer *)

Section Timer.

Context {E : Type}.
Variable H : host E.

(** X20.  Outside Open and the filter's two handshakes the timer does
    nothing: a timeout that fires only takes the lock, runs the enable
    arbiter and releases the lock, and a filter's request to start the
    timer is dropped; no field changes in either case. *)
Theorem timer_ignored_when_idle (timeout : timeval) (w : world E) :
  timer_idle (state (nd w)) = true ->
  basen_timeout H w = Ok tt (logged (EvLock :: ll_enables H w ++ [EvUnlock]) w)
  /\ basen_start_timer timeout w = Ok tt (logged [EvLock; EvUnlock] w).
Proof.
  intros Hs. destruct w as [d e t]. fields in Hs.
  split.
  - unfold basen_timeout. mred.
    destruct (state d) eqn:Hst; try discriminate; mred;
      rewrite basen_set_ll_enables_eq; unfold logged; fields;
      rewrite (ll_enables_trace H d e _ t), <- !app_assoc; reflexivity.
  - unfold basen_start_timer. mred.
    destruct (state d) eqn:Hst; try discriminate;
      cbn [basen_state_eqb]; mred; unfold logged; fields;
      rewrite <- !app_assoc; reflexivity.
Qed.

End Timer.

(** ** The theorems on the example worlds *)


Lemma ref_then_free_is_identity_witness :
  (basen_do_ref ;; basen_free plain_host) open_xmit
  = Ok tt (logged [EvLock; EvUnlock; EvLock; EvUnlock] open_xmit).
Proof.
  apply (ref_then_free_is_identity plain_host open_xmit).
  - vm_compute. reflexivity.
  - vm_compute. reflexivity.
Defined.

Lemma basen_free_suppresses_close_done_witness :
  exists w',
    basen_free async_host closing_ll_world = Ok tt w'
    /\ nd w'
       = set_refcount (refcount (nd closing_ll_world) - 1)
           (set_close_done None (set_freeref 0 (nd closing_ll_world)))
    /\ env w' = env closing_ll_world
    /\ forall data,
         count is_user_callback
           (trace (final (basen_ll_close_done async_host data w')))
         = count is_user_callback (trace w').
Proof.
  apply (basen_free_suppresses_close_done async_host closing_ll_world).
  - reflexivity.
  - reflexivity.
  - vm_compute. reflexivity.
Defined.

Lemma last_free_of_closed_endpoint_witness :
  basen_free plain_host (fresh (endpoint_in BASEN_CLOSED 1))
  = Ok tt
      (mk_world (set_refcount 0 (set_freeref 0 (endpoint_in BASEN_CLOSED 1)))
         [] [EvLock; EvUnlock; EvStopTimer; EvFinishFree])
  /\ forall w1 : world wire,
       count is_finish_free (trace (final (basen_timer_stopped w1)))
       = S (count is_finish_free (trace w1)).
Proof.
  exact (last_free_of_closed_endpoint plain_host
           (fresh (endpoint_in BASEN_CLOSED 1)) eq_refl eq_refl eq_refl).
Defined.

Lemma basen_ll_read_error_effect_witness :
  exists w' evs,
    basen_ll_read async_host ECONNRESET [] opening_ll = Ok 0 w'
    /\ trace w' = trace opening_ll ++ evs
    /\ state (nd w') = BASEN_IN_LL_CLOSE
    /\ read_enabled (nd w') = false
    /\ ll_err_occurred (nd w') = true
    /\ In (EvLLClose Basen_ll_close_on_err (this async_host)) evs
    /\ count is_ll_close evs = 1%nat
    /\ count is_user_callback evs = 0%nat.
Proof.
  assert (Herr : ECONNRESET <> 0) by (unfold ECONNRESET; lia).
  exact (basen_ll_read_error_effect async_host ECONNRESET [] opening_ll Herr).
Defined.

Lemma close_waits_for_drain_witness :
  state (nd draining_world) = BASEN_CLOSE_WAIT_DRAIN
  /\ has_ll_pending holding_host draining_world = true
  /\ match basen_ll_write_ready_drain holding_host draining_world with
     | Ok _ w1 =>
         state (nd w1) = BASEN_CLOSE_WAIT_DRAIN
         /\ count is_ll_close (trace w1)
            = count is_ll_close (trace draining_world)
         /\ if has_ll_pending holding_host w1 then
              basen_ll_write_ready_flush holding_host draining_world
              = Ok tt w1
            else
              basen_ll_write_ready_flush holding_host draining_world
              = basen_try_close holding_host
                  (mk_world (set_state BASEN_IN_FILTER_CLOSE (nd w1))
                     (env w1) (trace w1))
     | Stop f w1 =>
         basen_ll_write_ready_flush holding_host draining_world = Stop f w1
     end.
Proof.
  split; [reflexivity|]. split; [reflexivity|].
  apply (close_waits_for_drain holding_host draining_world).
  reflexivity.
Defined.

Lemma closing_endpoint_stays_closing_witness :
  closing_or_closed
    (state (nd (final (deliver_all async_host
                         [InLLCloseDone Basen_ll_close_done 4096;
                          InUser (UClose None 0)]
                         closing_ll_world))))
  = true.
Proof.
  apply (closing_endpoint_stays_closing async_host).
  - apply plain_cbs_never_reopen.
  - reflexivity.
  - reflexivity.
Defined.


Lemma timer_ignored_when_idle_witness :
  basen_timeout async_host closing_ll_world
  = Ok tt (logged [EvLock; EvUnlock] closing_ll_world)
  /\ basen_start_timer (1, 0) closing_ll_world
     = Ok tt (logged [EvLock; EvUnlock] closing_ll_world).
Proof.
  exact (timer_ignored_when_idle async_host (1, 0) closing_ll_world eq_refl).
Defined.
